(** * The MCP tool bridge of [agents/models/mcp_model.py]

    A shallow embedding of [ServerConfig], [MCPTool], [create_mcp_tools] and
    [MCPToolProvider], with the properties the specification states about
    them.

    Python objects become records, [Optional[T]] becomes [option T], a
    [Dict[str, T]] becomes a [gmap string T].  A call that may raise returns
    an [outcome].  Everything that reaches outside the process (opening a
    transport, the session handshake, listing and calling tools, the event
    loops) is recorded in a trace of events, and what the outside answers is
    given by a [Remote], which may depend on the whole history. *)

From Stdlib Require Import Ascii String List Bool Arith Lia.
From stdpp Require Import base option list gmap strings.
Import ListNotations.

Set Default Proof Using "Type".
Set Warnings "-register-all".

(** ** Python values and exceptions *)

(** The exception classes that occur.  The last three derive from
    [BaseException] only, which [except Exception] does not catch. *)
Inductive exception_class :=
| ValueError
| KeyError
| RuntimeError
| ConnectionError
| TimeoutError
| McpError
| AgentsException
| CancelledError
| KeyboardInterrupt
| SystemExit.

(** An exception object: its class, the text [str(e)] yields (for
    [ValueError(msg)] and [AgentsException(msg)] that is [msg]) and its
    [__context__], the exception that was being handled when it was raised. *)
Inductive exception :=
| Exc (cls : exception_class) (text : string) (context : option exception).

Definition exc_class (e : exception) : exception_class :=
  match e with Exc c _ _ => c end.

Definition str (e : exception) : string :=
  match e with Exc _ s _ => s end.

Definition __context__ (e : exception) : option exception :=
  match e with Exc _ _ c => c end.

(** The length of the [__context__] chain. *)
Fixpoint chain_length (e : exception) : nat :=
  match e with
  | Exc _ _ None => 0
  | Exc _ _ (Some c) => S (chain_length c)
  end.

(** [isinstance(e, Exception)] *)
Definition is_Exception (e : exception) : bool :=
  match exc_class e with
  | CancelledError | KeyboardInterrupt | SystemExit => false
  | _ => true
  end.

(** [raise C(msg)] builds a new exception object. *)
Definition new_exception (c : exception_class) (msg : string) : exception :=
  Exc c msg None.

(** Raising while [handled] is being handled sets [__context__]. *)
Definition raised_while_handling (handled e : exception) : exception :=
  Exc (exc_class e) (str e) (Some handled).

Inductive outcome (A : Type) :=
| Return (a : A)
| Raise (e : exception).
Arguments Return {A} a.
Arguments Raise {A} e.

(** A JSON-like value, for parameter schemas, arguments and results. *)
Inductive json :=
| JNull
| JBool (b : bool)
| JNum (n : nat)
| JStr (s : string)
| JArr (l : list json)
| JObj (fields : list (string * json)).

(** Truth value of an [Optional[str]]: [None] and the empty string are
    false. *)
Definition truthy (o : option string) : bool :=
  match o with
  | Some s => negb (String.eqb s "")
  | None => false
  end.

(** [a or b] on [Optional[str]]. *)
Definition py_or (a b : option string) : option string :=
  if truthy a then a else b.

(** [s1] occurs in [s2]. *)
Definition occurs_in (s1 s2 : string) : Prop :=
  ∃ before after, s2 = before +:+ s1 +:+ after.

(** The character [a] occurs in [s]. *)
Fixpoint has_char (a : Ascii.ascii) (s : string) : bool :=
  match s with
  | EmptyString => false
  | String b s => Ascii.eqb a b || has_char a s
  end.

(** ** ServerConfig *)

Module ServerConfig.

Record t := mk {
  name : string;
  base_url : option string;
  api_key : option string;
  command : option string;
  args : list string;
  env : gmap string string
}.

Definition __init__ (name : string)
    (base_url api_key command : option string)
    (args : option (list string)) (env : option (gmap string string))
  : outcome t :=
  let self := mk name base_url api_key command
                 (default [] args) (default ∅ env) in
  match base_url, command with
  | None, None =>
      Raise (new_exception ValueError
               ("Server " +:+ name +:+
                " must have either base_url or command specified"))
  | Some _, Some _ =>
      Raise (new_exception ValueError
               ("Server " +:+ name +:+
                " cannot have both base_url and command specified"))
  | _, _ => Return self
  end.

End ServerConfig.

(** ** Sessions, tools and the outside world *)

(** A stream endpoint handed out by a transport. *)
Definition stream := nat.

(** A [ClientSession] object; [session_id] is the identity of the object. *)
Record ClientSession := {
  session_id : nat;
  read_stream : stream;
  write_stream : stream
}.

(** The parameters handed to [stdio_client], with the fields as the code
    passes them.  Whatever checks the library's class makes on them when it
    is built are not part of this model. *)
Record StdioServerParameters := {
  sp_command : option string;
  sp_args : list string;
  sp_env : gmap string string
}.

(** One entry of what [list_tools] answers: a dict of which the code reads
    the keys ["name"], ["description"] and ["parameters"]; [None] is an
    absent key. *)
Record tool_dict := {
  key_name : option string;
  key_description : option string;
  key_parameters : option json
}.

Inductive event :=
| new_event_loop
| loop_close
| http_client (base_url : string) (api_key : option string)
| stdio_client (server_params : StdioServerParameters)
| initialize (session : ClientSession)
| list_tools (session : ClientSession)
| call_tool (session : ClientSession) (name : string)
            (arguments : gmap string json).

(** A transport-connection attempt. *)
Definition is_connect (ev : event) : bool :=
  match ev with
  | http_client _ _ | stdio_client _ => true
  | _ => false
  end.

Definition connection_attempts (tr : list event) : nat :=
  length (filter (λ ev, is_connect ev = true) tr).

(** What the outside answers to each request, given the events so far. *)
Record Remote := {
  on_http_client :
    list event → string → option string → outcome (stream * stream);
  on_stdio_client :
    list event → StdioServerParameters → outcome (stream * stream);
  on_initialize : list event → ClientSession → outcome unit;
  on_list_tools : list event → ClientSession → outcome (list tool_dict);
  on_call_tool :
    list event → ClientSession → string → gmap string json → outcome json
}.

(** ** Adapted tools *)

Record FunctionSchema := {
  fs_name : string;
  fs_description : string;
  fs_parameters : json
}.

Module MCPTool.

Record t := mk {
  name : string;
  description : string;
  _client_session : ClientSession;
  _mcp_schema : tool_dict;
  schema : FunctionSchema
}.

Definition __init__ (name description : string)
    (client_session : ClientSession) (mcp_schema : tool_dict) : t :=
  let parameters := default (JObj []) (key_parameters mcp_schema) in
  mk name description client_session mcp_schema
     {| fs_name := name; fs_description := description;
        fs_parameters := parameters |}.

End MCPTool.

(** ** The provider object and the program state *)

Module MCPToolProvider.

Record t := mk {
  _anthropic_api_key : option string;
  _servers : list ServerConfig.t;
  _default_server : string;
  _sessions : gmap string ClientSession
}.

Definition set_sessions (m : gmap string ClientSession) (self : t) : t :=
  mk (_anthropic_api_key self) (_servers self) (_default_server self) m.

(** [environ] is [os.environ]. *)
Definition __init__ (environ : gmap string string)
    (servers : option (list ServerConfig.t))
    (default_server anthropic_api_key : option string) : outcome t :=
  let key := py_or anthropic_api_key (environ !! "ANTHROPIC_API_KEY") in
  if negb (truthy key) then
    Raise (new_exception ValueError
             "Anthropic API key must be provided for MCP integration")
  else
    match default [] servers with
    | [] =>
        Raise (new_exception ValueError
                 "At least one MCP server must be configured")
    | (first :: _) as servers =>
        let default_server :=
          match default_server with
          | Some d => if truthy (Some d) then d else ServerConfig.name first
          | None => ServerConfig.name first
          end in
        Return (mk key servers default_server ∅)
    end.

End MCPToolProvider.

Import MCPToolProvider.

(** The state a call runs in: the provider object, the events so far, the
    lines written to the logger, and the next free object identity. *)
Record State := {
  self : MCPToolProvider.t;
  trace : list event;
  log : list string;
  next_id : nat
}.

Definition initial_state (p : MCPToolProvider.t) : State :=
  {| self := p; trace := []; log := []; next_id := 0 |}.

(** ** Calls that change the state and may raise *)

Definition M (A : Type) : Type := State → outcome A * State.

Definition ret {A} (a : A) : M A := λ st, (Return a, st).

Definition raise {A} (e : exception) : M A := λ st, (Raise e, st).

(** A computation that does not touch the state. *)
Definition lift_outcome {A} (r : outcome A) : M A := λ st, (r, st).

Definition bind {A B} (m : M A) (k : A → M B) : M B :=
  λ st, match m st with
        | (Return a, st') => k a st'
        | (Raise e, st') => (Raise e, st')
        end.

#[global] Instance M_ret : MRet M := @ret.
#[global] Instance M_bind : MBind M := λ A B k m, bind m k.

(** [try: body finally: final] *)
Definition try_finally {A} (body : M A) (final : M unit) : M A :=
  λ st, match body st with
        | (r, st') =>
            match final st' with
            | (Return _, st'') => (r, st'')
            | (Raise e, st'') => (Raise e, st'')
            end
        end.

(** [try: body except Exception as e: handler e].  An exception that is not
    an [Exception] passes through; one raised by the handler gets the
    handled one as its [__context__]. *)
Definition try_except_Exception {A} (body : M A) (handler : exception → M A)
  : M A :=
  λ st, match body st with
        | (Return a, st') => (Return a, st')
        | (Raise e, st') =>
            if is_Exception e then
              match handler e st' with
              | (Return a, st'') => (Return a, st'')
              | (Raise e', st'') => (Raise (raised_while_handling e e'), st'')
              end
            else (Raise e, st')
        end.

(** A request to the outside: the event is appended to the trace, and the
    answer is the one given for the events before it. *)
Definition request {A} (ev : event) (answer : list event → outcome A) : M A :=
  λ st, (answer (trace st),
         {| self := self st; trace := trace st ++ [ev];
            log := log st; next_id := next_id st |}).

Definition signal (ev : event) : M unit :=
  request ev (λ _, Return tt).

(** [logger.error(msg)] *)
Definition logger_error (msg : string) : M unit :=
  λ st, (Return tt,
         {| self := self st; trace := trace st;
            log := log st ++ [msg]; next_id := next_id st |}).

(** [ClientSession(read_stream, write_stream)]: a new object. *)
Definition new_ClientSession (r w : stream) : M ClientSession :=
  λ st, (Return {| session_id := next_id st;
                   read_stream := r; write_stream := w |},
         {| self := self st; trace := trace st;
            log := log st; next_id := S (next_id st) |}).

Definition get_self : M MCPToolProvider.t := λ st, (Return (self st), st).

(** [self._sessions[server_name] = session] *)
Definition store_session (server_name : string) (session : ClientSession)
  : M unit :=
  λ st, (Return tt,
         {| self := set_sessions (<[server_name := session]>
                                    (_sessions (self st))) (self st);
            trace := trace st; log := log st; next_id := next_id st |}).

(** ** The methods *)

Section Methods.

Context (remote : Remote).

(** [loop.run_until_complete(http_client(...))] and the like: one request
    to the outside each. *)
Definition run_http_client (base_url : string) (api_key : option string)
  : M (stream * stream) :=
  request (http_client base_url api_key)
          (λ h, on_http_client remote h base_url api_key).

Definition run_stdio_client (server_params : StdioServerParameters)
  : M (stream * stream) :=
  request (stdio_client server_params)
          (λ h, on_stdio_client remote h server_params).

Definition run_initialize (session : ClientSession) : M unit :=
  request (initialize session) (λ h, on_initialize remote h session).

Definition run_list_tools (session : ClientSession) : M (list tool_dict) :=
  request (list_tools session) (λ h, on_list_tools remote h session).

Definition run_call_tool (session : ClientSession) (name : string)
    (arguments : gmap string json) : M json :=
  request (call_tool session name arguments)
          (λ h, on_call_tool remote h session name arguments).

(** [MCPTool._call_mcp_tool] *)
Definition _call_mcp_tool (tool : MCPTool.t) (kwargs : gmap string json)
  : M json :=
  try_except_Exception
    (result ← run_call_tool (MCPTool._client_session tool)
                            (MCPTool.name tool) kwargs;
     mret result)
    (λ e,
       logger_error ("Error calling MCP tool " +:+ MCPTool.name tool +:+
                     ": " +:+ str e);;
       raise (new_exception AgentsException
                ("MCP tool error (" +:+ MCPTool.name tool +:+ "): " +:+
                 str e))).

(** The [for mcp_tool in mcp_tools] loop of [create_mcp_tools]; [tools] is
    the list built so far.  [mcp_tool["name"]] raises [KeyError] when the
    key is absent. *)
Fixpoint wrap_tools (client_session : ClientSession)
    (mcp_tools : list tool_dict) (tools : list MCPTool.t)
  : outcome (list MCPTool.t) :=
  match mcp_tools with
  | [] => Return tools
  | mcp_tool :: rest =>
      match key_name mcp_tool with
      | None => Raise (new_exception KeyError "'name'")
      | Some name =>
          let tool :=
            MCPTool.__init__ name (default "" (key_description mcp_tool))
                             client_session mcp_tool in
          wrap_tools client_session rest (tools ++ [tool])
      end
  end.

Definition create_mcp_tools (client_session : ClientSession)
  : M (list MCPTool.t) :=
  mcp_tools ← run_list_tools client_session;
  lift_outcome (wrap_tools client_session mcp_tools []).

(** [next((s for s in self._servers if s.name == server_name), None)] *)
Definition find_server (servers : list ServerConfig.t)
    (server_name : string) : option ServerConfig.t :=
  List.find (λ s, String.eqb (ServerConfig.name s) server_name) servers.

(** The transport is chosen by the truth value of [base_url]. *)
Definition open_transport (server_config : ServerConfig.t)
  : M (stream * stream) :=
  match ServerConfig.base_url server_config with
  | Some url =>
      if truthy (Some url) then
        run_http_client url (ServerConfig.api_key server_config)
      else
        run_stdio_client
          {| sp_command := ServerConfig.command server_config;
             sp_args := ServerConfig.args server_config;
             sp_env := ServerConfig.env server_config |}
  | None =>
      run_stdio_client
        {| sp_command := ServerConfig.command server_config;
           sp_args := ServerConfig.args server_config;
           sp_env := ServerConfig.env server_config |}
  end.

(** [MCPToolProvider._get_or_create_session] *)
Definition _get_or_create_session (server_name : string)
  : M ClientSession :=
  self ← get_self;
  match _sessions self !! server_name with
  | Some session => mret session
  | None =>
      match find_server (_servers self) server_name with
      | None =>
          raise (new_exception ValueError
                   ("No server configuration found for " +:+ server_name))
      | Some server_config =>
          signal new_event_loop;;
          try_finally
            ('(read_stream, write_stream) ← open_transport server_config;
             session ← new_ClientSession read_stream write_stream;
             run_initialize session;;
             store_session server_name session;;
             mret session)
            (signal loop_close)
      end
  end.

(** [MCPToolProvider.get_tools_from_server] *)
Definition get_tools_from_server (server_name : option string)
  : M (list MCPTool.t) :=
  self ← get_self;
  let server_name := default (_default_server self) server_name in
  session ← _get_or_create_session server_name;
  signal new_event_loop;;
  try_finally
    (tools ← create_mcp_tools session;
     mret tools)
    (signal loop_close).

(** The [for server in self._servers] loop of [get_all_tools];
    [all_tools] is the list built so far. *)
Fixpoint get_all_tools_loop (servers : list ServerConfig.t)
    (all_tools : list MCPTool.t) : M (list MCPTool.t) :=
  match servers with
  | [] => mret all_tools
  | server :: rest =>
      tools ← get_tools_from_server (Some (ServerConfig.name server));
      get_all_tools_loop rest (all_tools ++ tools)
  end.

(** [MCPToolProvider.get_all_tools] *)
Definition get_all_tools : M (list MCPTool.t) :=
  self ← get_self;
  get_all_tools_loop (_servers self) [].

End Methods.

(** ** Derived notions used in the statements *)

(** The request [open_transport] makes for a configuration. *)
Definition transport_event (server_config : ServerConfig.t) : event :=
  if truthy (ServerConfig.base_url server_config) then
    http_client (default "" (ServerConfig.base_url server_config))
                (ServerConfig.api_key server_config)
  else
    stdio_client {| sp_command := ServerConfig.command server_config;
                    sp_args := ServerConfig.args server_config;
                    sp_env := ServerConfig.env server_config |}.

(** The answer to that request after the events [h]. *)
Definition transport_answer (remote : Remote) (h : list event)
    (server_config : ServerConfig.t) : outcome (stream * stream) :=
  if truthy (ServerConfig.base_url server_config) then
    on_http_client remote h (default "" (ServerConfig.base_url server_config))
                   (ServerConfig.api_key server_config)
  else
    on_stdio_client remote h
      {| sp_command := ServerConfig.command server_config;
         sp_args := ServerConfig.args server_config;
         sp_env := ServerConfig.env server_config |}.

(** [e] wraps [cause] with [label] as context. *)
Definition wraps (label : string) (cause e : exception) : Prop :=
  __context__ e = Some cause ∧ occurs_in label (str e).

(** Exactly one of [base_url] and [command] is given. *)
Definition one_transport (c : ServerConfig.t) : Prop :=
  (is_Some (ServerConfig.base_url c) ∧ ServerConfig.command c = None) ∨
  (ServerConfig.base_url c = None ∧ is_Some (ServerConfig.command c)).

(** What [create_mcp_tools] makes of one listed entry. *)
Definition adapted (session : ClientSession) (d : tool_dict)
    (tool : MCPTool.t) : Prop :=
  key_name d = Some (MCPTool.name tool) ∧
  tool = MCPTool.__init__ (MCPTool.name tool)
                          (default "" (key_description d)) session d.

(** Every cached session belongs to a configured server. *)
Definition cache_configured (st : State) : Prop :=
  ∀ n s, _sessions (self st) !! n = Some s →
         n ∈ map ServerConfig.name (_servers (self st)).

(** The provider keeps its server list and default server, and only
    sessions of configured servers get into the cache. *)
Definition provider_inv (p : MCPToolProvider.t) (st : State) : Prop :=
  _servers (self st) = _servers p ∧
  _default_server (self st) = _default_server p ∧
  cache_configured st.

Section Derived.

Context (remote : Remote).

(** The states the provider [p] can be in: it starts with an empty cache
    and changes through its methods and through calls of its tools. *)
Inductive reachable (p : MCPToolProvider.t) : State → Prop :=
| reach_start tr lg k :
    _sessions p = ∅ →
    reachable p {| self := p; trace := tr; log := lg; next_id := k |}
| reach_session st n r st' :
    reachable p st →
    _get_or_create_session remote n st = (r, st') →
    reachable p st'
| reach_tools st n r st' :
    reachable p st →
    get_tools_from_server remote n st = (r, st') →
    reachable p st'
| reach_all_tools st r st' :
    reachable p st →
    get_all_tools remote st = (r, st') →
    reachable p st'
| reach_call st tool kwargs r st' :
    reachable p st →
    _call_mcp_tool remote tool kwargs st = (r, st') →
    reachable p st'.

(** The results of [get_tools_from_server] for each server of a list, one
    server after the other, when all of them succeed. *)
Inductive per_server :
  list ServerConfig.t → State → list (list MCPTool.t) → State → Prop :=
| per_server_nil st : per_server [] st [] st
| per_server_cons server rest st tools st1 lists st2 :
    get_tools_from_server remote (Some (ServerConfig.name server)) st
      = (Return tools, st1) →
    per_server rest st1 lists st2 →
    per_server (server :: rest) st (tools :: lists) st2.

(** *** Interleaved calls of [_get_or_create_session]

    A call in progress is at one of four points; between two of them it
    runs without interruption.  The code takes no lock, so another call
    may run between any two steps. *)
Inductive thread :=
| Start (server_name : string)
| Connecting (server_name : string) (server_config : ServerConfig.t)
| Initializing (server_name : string) (session : ClientSession)
| Finished (result : outcome ClientSession).

Definition thread_step (t : thread) (st : State) : thread * State :=
  match t with
  | Start n =>
      match _sessions (self st) !! n with
      | Some session => (Finished (Return session), st)
      | None =>
          match find_server (_servers (self st)) n with
          | None =>
              (Finished
                 (Raise (new_exception ValueError
                           ("No server configuration found for " +:+ n))),
               st)
          | Some server_config =>
              (Connecting n server_config, (signal new_event_loop st).2)
          end
      end
  | Connecting n server_config =>
      match ('(r, w) ← open_transport remote server_config;
             new_ClientSession r w) st with
      | (Return session, st') => (Initializing n session, st')
      | (Raise e, st') => (Finished (Raise e), (signal loop_close st').2)
      end
  | Initializing n session =>
      match run_initialize remote session st with
      | (Return _, st') =>
          (Finished (Return session),
           (signal loop_close (store_session n session st').2).2)
      | (Raise e, st') => (Finished (Raise e), (signal loop_close st').2)
      end
  | Finished r => (Finished r, st)
  end.

(** Each entry of the schedule names the thread that takes the next
    step. *)
Fixpoint run_schedule (schedule : list nat) (threads : list thread)
    (st : State) : list thread * State :=
  match schedule with
  | [] => (threads, st)
  | i :: rest =>
      match threads !! i with
      | Some t =>
          let '(t', st') := thread_step t st in
          run_schedule rest (<[i := t']> threads) st'
      | None => run_schedule rest threads st
      end
  end.

End Derived.


(** ** The setting of [examples/mcp/mcp_tools_example.py] *)

Module Example.

Definition say_server : outcome ServerConfig.t :=
  ServerConfig.__init__ "say-service" None None (Some "python")
                        (Some ["examples/mcp/say_server.py"]) None.

Definition fetch_server : outcome ServerConfig.t :=
  ServerConfig.__init__ "fetch-service" None None (Some "python")
                        (Some ["examples/mcp/fetch_server.py"]) None.

Definition say_config : ServerConfig.t :=
  ServerConfig.mk "say-service" None None (Some "python")
                  ["examples/mcp/say_server.py"] ∅.

Definition fetch_config : ServerConfig.t :=
  ServerConfig.mk "fetch-service" None None (Some "python")
                  ["examples/mcp/fetch_server.py"] ∅.

Definition environ : gmap string string :=
  {[ "ANTHROPIC_API_KEY" := "sk-test" ]}.

Definition provider : MCPToolProvider.t :=
  MCPToolProvider.mk (Some "sk-test") [say_config; fetch_config]
                     "say-service" ∅.

Definition start : State := initial_state provider.

Definition say_tool : tool_dict :=
  {| key_name := Some "say"; key_description := Some "Speak text aloud";
     key_parameters := Some (JObj [("text", JStr "string")]) |}.

Definition fetch_tool : tool_dict :=
  {| key_name := Some "fetch"; key_description := None;
     key_parameters := None |}.

Definition is_fetch (p : StdioServerParameters) : bool :=
  match sp_args p with
  | [a] => String.eqb a "examples/mcp/fetch_server.py"
  | _ => false
  end.

(** Both servers are up; a subprocess gets the streams [2k], [2k+1] when
    [k] events came before. *)
Definition all_up : Remote :=
  {| on_http_client h _ _ := Return (2 * length h, 2 * length h + 1);
     on_stdio_client h _ := Return (2 * length h, 2 * length h + 1);
     on_initialize _ _ := Return tt;
     on_list_tools _ s :=
       Return (if Nat.eqb (session_id s) 0 then [say_tool]
               else [fetch_tool]);
     on_call_tool _ _ _ _ :=
       Raise (new_exception ConnectionError "broken pipe") |}.

(** The fetch server cannot be started. *)
Definition fetch_down : Remote :=
  {| on_http_client h _ _ := Return (2 * length h, 2 * length h + 1);
     on_stdio_client h p :=
       if is_fetch p then
         Raise (new_exception ConnectionError "connection refused")
       else Return (2 * length h, 2 * length h + 1);
     on_initialize _ _ := Return tt;
     on_list_tools _ _ := Return [say_tool];
     on_call_tool _ _ _ _ := Return JNull |}.

Definition session0 : ClientSession :=
  {| session_id := 0; read_stream := 2; write_stream := 3 |}.

Definition say : MCPTool.t :=
  MCPTool.__init__ "say" "Speak text aloud" session0 say_tool.

Definition session1 : ClientSession :=
  {| session_id := 1; read_stream := 16; write_stream := 17 |}.

Definition fetch : MCPTool.t :=
  MCPTool.__init__ "fetch" "" session1 fetch_tool.

Definition refused : exception :=
  Exc ConnectionError "connection refused" None.

Definition say_params : StdioServerParameters :=
  {| sp_command := Some "python";
     sp_args := ["examples/mcp/say_server.py"]; sp_env := ∅ |}.

(** The state after the session of the say server was created. *)
Definition say_cached : State :=
  {| self := MCPToolProvider.mk (Some "sk-test") [say_config; fetch_config]
               "say-service" {[ "say-service" := session0 ]};
     trace := [new_event_loop; stdio_client say_params;
               initialize session0; loop_close];
     log := []; next_id := 1 |}.

(** A listing whose second entry has no name. *)
Definition unnamed_tool : tool_dict :=
  {| key_name := None; key_description := Some "no name";
     key_parameters := None |}.

Definition bad_listing : Remote :=
  {| on_http_client h _ _ := Return (2 * length h, 2 * length h + 1);
     on_stdio_client h _ := Return (2 * length h, 2 * length h + 1);
     on_initialize _ _ := Return tt;
     on_list_tools _ _ := Return [say_tool; unnamed_tool];
     on_call_tool _ _ _ _ := Raise (Exc CancelledError "" None) |}.

(** The servers start, but listing their tools fails. *)
Definition listing_fails : Remote :=
  {| on_http_client h _ _ := Return (2 * length h, 2 * length h + 1);
     on_stdio_client h _ := Return (2 * length h, 2 * length h + 1);
     on_initialize _ _ := Return tt;
     on_list_tools _ _ := Raise (Exc TimeoutError "timed out" None);
     on_call_tool _ _ _ _ := Return JNull |}.

(** A provider whose default server is not among its servers. *)
Definition stray_default : MCPToolProvider.t :=
  MCPToolProvider.mk (Some "sk-test") [say_config; fetch_config]
                     "weather-service" ∅.

(** The state after [get_all_tools] with both servers up. *)
Definition both_cached : State := (get_all_tools all_up start).2.

End Example.

(** ** Notions for the properties of the whole provider *)

Definition is_new_event_loop (ev : event) : bool :=
  match ev with new_event_loop => true | _ => false end.

Definition is_loop_close (ev : event) : bool :=
  match ev with loop_close => true | _ => false end.

Definition is_list_tools (ev : event) : bool :=
  match ev with list_tools _ => true | _ => false end.

Definition is_call_tool (ev : event) : bool :=
  match ev with call_tool _ _ _ => true | _ => false end.

(** How many events of a kind a trace has. *)
Definition count (kind : event → bool) (tr : list event) : nat :=
  length (filter (λ ev, kind ev = true) tr).

(** As many event loops closed as opened. *)
Definition loops_balanced (evs : list event) : Prop :=
  count is_new_event_loop evs = count is_loop_close evs.

(** No two names share a session object, and the identities in use are
    below the next free one. *)
Definition sessions_distinct (st : State) : Prop :=
  (∀ n s, _sessions (self st) !! n = Some s → session_id s < next_id st) ∧
  (∀ n1 n2 s1 s2,
     _sessions (self st) !! n1 = Some s1 →
     _sessions (self st) !! n2 = Some s2 →
     session_id s1 = session_id s2 → n1 = n2).

(** A thread that has not opened its transport yet. *)
Definition before_connect (t : thread) : bool :=
  match t with
  | Start _ | Connecting _ _ => true
  | _ => false
  end.

Definition threads_before_connect (threads : list thread) : nat :=
  length (filter (λ t, before_connect t = true) threads).

(** Every cached session went through a handshake that succeeded. *)
Definition cached_initialized (remote : Remote) (st : State) : Prop :=
  ∀ n s, _sessions (self st) !! n = Some s →
         ∃ h rest, trace st = h ++ initialize s :: rest ∧
                   on_initialize remote h s = Return tt.

(** One call of a method of the provider, or of one of its tools. *)
Inductive method_call (remote : Remote) : State → State → Prop :=
| call_get_or_create_session n st r st' :
    _get_or_create_session remote n st = (r, st') →
    method_call remote st st'
| call_get_tools_from_server n st r st' :
    get_tools_from_server remote n st = (r, st') →
    method_call remote st st'
| call_get_all_tools st r st' :
    get_all_tools remote st = (r, st') →
    method_call remote st st'
| call_call_mcp_tool tool kwargs st r st' :
    _call_mcp_tool remote tool kwargs st = (r, st') →
    method_call remote st st'.

(** ** ServerConfig with its list and dict as objects

    [ServerConfig] is a plain class, and [self.args = args or []] keeps the
    list that was passed, not a copy of it.  To say what that means for
    the caller, the lists and dicts are objects in a store here, and a
    configuration holds references to them. *)

Module Objects.

(** The list and dict objects that exist, by their identity. *)
Record Store := {
  lists : gmap nat (list string);
  dicts : gmap nat (gmap string string)
}.

(** A [ServerConfig] object: [args] and [env] are references. *)
Record ServerConfig := {
  name : string;
  base_url : option string;
  api_key : option string;
  command : option string;
  args : nat;
  env : nat
}.

(** [args or []]: the object passed when it is a non-empty list, a new empty
    list otherwise. *)
Definition args_or_new (args : option nat) (s : Store) : nat * Store :=
  let new := fresh (dom (lists s)) in
  let with_new := {| lists := <[new := []]> (lists s); dicts := dicts s |} in
  match args with
  | Some r =>
      match lists s !! r with
      | Some (_ :: _) => (r, s)
      | _ => (new, with_new)
      end
  | None => (new, with_new)
  end.

(** [env or {}] *)
Definition env_or_new (env : option nat) (s : Store) : nat * Store :=
  let new := fresh (dom (dicts s)) in
  let with_new := {| lists := lists s; dicts := <[new := ∅]> (dicts s) |} in
  match env with
  | Some r =>
      match dicts s !! r with
      | Some d => if bool_decide (d = ∅) then (new, with_new) else (r, s)
      | None => (new, with_new)
      end
  | None => (new, with_new)
  end.

(** [ServerConfig.__init__]: the attributes are set first, then the
    transport fields are checked. *)
Definition __init__ (name : string)
    (base_url api_key command : option string)
    (args env : option nat) (s : Store) : outcome ServerConfig * Store :=
  let '(args_ref, s1) := args_or_new args s in
  let '(env_ref, s2) := env_or_new env s1 in
  let self := {| name := name; base_url := base_url; api_key := api_key;
                 command := command; args := args_ref; env := env_ref |} in
  match base_url, command with
  | None, None =>
      (Raise (new_exception ValueError
                ("Server " +:+ name +:+
                 " must have either base_url or command specified")), s2)
  | Some _, Some _ =>
      (Raise (new_exception ValueError
                ("Server " +:+ name +:+
                 " cannot have both base_url and command specified")), s2)
  | _, _ => (Return self, s2)
  end.

(** What the attributes of a configuration are in a store. *)
Definition view (s : Store) (c : ServerConfig) : ServerConfig.t :=
  ServerConfig.mk (name c) (base_url c) (api_key c) (command c)
                  (default [] (lists s !! args c))
                  (default ∅ (dicts s !! env c)).

(** The list or dict behind an argument, if one was passed. *)
Definition list_value (s : Store) (args : option nat)
  : option (list string) := args ≫= (lists s !!.).

Definition dict_value (s : Store) (env : option nat)
  : option (gmap string string) := env ≫= (dicts s !!.).

(** [l.append(x)] on the list object [r]. *)
Definition list_append (r : nat) (x : string) (s : Store) : Store :=
  {| lists := alter (λ l, l ++ [x]) r (lists s); dicts := dicts s |}.

End Objects.

(** A caller that holds the argument list of the say server as an object
    of its own. *)
Definition caller_store : Objects.Store :=
  {| Objects.lists := {[ 0 := ["examples/mcp/say_server.py"] ]};
     Objects.dicts := ∅ |}.

(** * Properties *)

(** ** Strings and exceptions *)

Lemma occurs_in_middle (before s after : string) :
  occurs_in s (before +:+ s +:+ after).
Proof. by exists before, after. Qed.

Lemma append_nil_r (s : string) : s +:+ "" = s.
Proof.
  induction s as [|a s IH]; [reflexivity|].
  change (String a (s +:+ "") = String a s). by rewrite IH.
Qed.

Lemma append_assoc (a b c : string) : (a +:+ b) +:+ c = a +:+ b +:+ c.
Proof.
  induction a as [|x a IH]; [reflexivity|].
  change (String x ((a +:+ b) +:+ c) = String x (a +:+ b +:+ c)).
  by rewrite IH.
Qed.

Lemma occurs_in_end (before s : string) : occurs_in s (before +:+ s).
Proof. exists before, "". by rewrite append_nil_r. Qed.

Lemma occurs_in_append_r (s t prefix : string) :
  occurs_in s t → occurs_in s (prefix +:+ t).
Proof.
  intros (before & after & ->). exists (prefix +:+ before), after.
  by rewrite append_assoc.
Qed.

Lemma not_own_context (c : exception_class) (s : string) (e : exception) :
  Exc c s (Some e) ≠ e.
Proof. intros H. apply (f_equal chain_length) in H. simpl in H. lia. Qed.

Lemma has_char_append (a : Ascii.ascii) (s1 s2 : string) :
  has_char a (s1 +:+ s2) = has_char a s1 || has_char a s2.
Proof.
  induction s1 as [|b s1 IH]; [reflexivity|].
  change (has_char a (String b s1 +:+ s2))
    with (Ascii.eqb a b || has_char a (s1 +:+ s2)).
  simpl. by rewrite IH, orb_assoc.
Qed.

Lemma occurs_in_has_char (a : Ascii.ascii) (s1 s2 : string) :
  occurs_in s1 s2 → has_char a s1 = true → has_char a s2 = true.
Proof.
  intros (before & after & ->) H.
  rewrite !has_char_append, H. by rewrite orb_true_r.
Qed.

(** ** ServerConfig *)

Lemma ServerConfig_init_Return name base_url api_key command args env c :
  ServerConfig.__init__ name base_url api_key command args env = Return c →
  c = ServerConfig.mk name base_url api_key command
                      (default [] args) (default ∅ env) ∧
  ((is_Some base_url ∧ command = None) ∨ (base_url = None ∧ is_Some command)).
Proof.
  unfold ServerConfig.__init__.
  destruct base_url as [u|], command as [cm|]; intros H; try discriminate H;
    injection H as <-; (split; [reflexivity|]); [left|right]; eauto.
Qed.

(** The validation, on the values of the attributes.  Giving both
    [base_url] and [command], or neither, makes [ServerConfig(...)] raise a
    [ValueError] (the configuration error) whose text contains the server
    name, and no descriptor is returned; giving exactly one of them returns
    the descriptor with every field set: the name and the transport fields
    as passed, [args] and [env] with [None] replaced by the empty list and
    dict. *)
Theorem ServerConfig_init_validates
    (name : string) (base_url api_key command : option string)
    (args : option (list string)) (env : option (gmap string string)) :
  ((is_Some base_url ↔ is_Some command) →
     ∃ e, ServerConfig.__init__ name base_url api_key command args env
            = Raise e
          ∧ exc_class e = ValueError ∧ occurs_in name (str e)) ∧
  (¬ (is_Some base_url ↔ is_Some command) →
     ServerConfig.__init__ name base_url api_key command args env
       = Return (ServerConfig.mk name base_url api_key command
                   (default [] args) (default ∅ env))).
Proof.
  unfold ServerConfig.__init__.
  destruct base_url as [u|], command as [cm|]; split; intros H.
  - eexists. split; [reflexivity|]. split; [reflexivity|].
    apply occurs_in_middle.
  - destruct H. split; eauto.
  - destruct H as [H _]. destruct (H (ltac:(eauto))) as [? [=]].
  - reflexivity.
  - destruct H as [_ H]. destruct (H (ltac:(eauto))) as [? [=]].
  - reflexivity.
  - eexists. split; [reflexivity|]. split; [reflexivity|].
    apply occurs_in_middle.
  - destruct H. split; intros [? [=]].
Qed.

Lemma ServerConfig_init_validates_witness :
  (∃ e, ServerConfig.__init__ "say-service" (Some "http://localhost:8000")
          None (Some "python") None None = Raise e
        ∧ exc_class e = ValueError ∧ occurs_in "say-service" (str e)) ∧
  (∃ e, ServerConfig.__init__ "say-service" None None None None None = Raise e
        ∧ exc_class e = ValueError ∧ occurs_in "say-service" (str e)) ∧
  Example.say_server = Return Example.say_config.
Proof.
  split; [|split].
  - apply (ServerConfig_init_validates "say-service"
             (Some "http://localhost:8000") None (Some "python") None None).
    split; intros _; eauto.
  - apply (ServerConfig_init_validates "say-service" None None None None None).
    split; intros [? [=]].
  - apply (ServerConfig_init_validates "say-service" None None (Some "python")
             (Some ["examples/mcp/say_server.py"]) None).
    intros [_ H]. destruct (H (ltac:(eauto))) as [? [=]].
Defined.

(** C9, as the code has it. A [ServerConfig] that was constructed has
    exactly one of [base_url] and [command] set, and its name is the string
    that was passed, whatever it is: the constructor does not look at the
    name. *)
Theorem ServerConfig_one_transport
    (name : string) (base_url api_key command : option string)
    (args : option (list string)) (env : option (gmap string string))
    (c : ServerConfig.t) :
  ServerConfig.__init__ name base_url api_key command args env = Return c →
  one_transport c ∧ ServerConfig.name c = name.
Proof.
  intros H. apply ServerConfig_init_Return in H as [-> H].
  split; [exact H | reflexivity].
Qed.

Lemma ServerConfig_one_transport_witness :
  one_transport Example.say_config ∧
  ServerConfig.name Example.say_config = "say-service".
Proof.
  apply (ServerConfig_one_transport "say-service" None None (Some "python")
           (Some ["examples/mcp/say_server.py"]) None).
  reflexivity.
Defined.

(** C9, as stated, fails: a [ServerConfig] with an empty name is
    constructed. *)
Lemma ServerConfig_empty_name_accepted :
  ¬ (∀ name base_url api_key command args env c,
       ServerConfig.__init__ name base_url api_key command args env
         = Return c →
       one_transport c ∧ ServerConfig.name c ≠ "").
Proof.
  intros H.
  destruct (H "" None None (Some "python") None None _ eq_refl) as [_ Hname].
  by apply Hname.
Qed.

(** ** Calling an adapted tool *)

Ltac unfold_M :=
  unfold get_tools_from_server, create_mcp_tools, _call_mcp_tool,
    run_http_client, run_stdio_client, run_initialize, run_list_tools,
    run_call_tool, try_except_Exception, try_finally, logger_error,
    new_ClientSession, store_session, get_self, signal, request,
    lift_outcome, raise, mbind, M_bind, bind, mret, M_ret, ret.

Section CallTool.

Context (remote : Remote).

(** What [_call_mcp_tool] does, by the answer of the session. *)
Lemma call_mcp_tool_eq tool kwargs st :
  _call_mcp_tool remote tool kwargs st =
    let session := MCPTool._client_session tool in
    let name := MCPTool.name tool in
    let tr := trace st ++ [call_tool session name kwargs] in
    match on_call_tool remote (trace st) session name kwargs with
    | Return result =>
        (Return result,
         {| self := self st; trace := tr; log := log st;
            next_id := next_id st |})
    | Raise e =>
        if is_Exception e then
          (Raise (Exc AgentsException
                    ("MCP tool error (" +:+ name +:+ "): " +:+ str e)
                    (Some e)),
           {| self := self st; trace := tr;
              log := log st ++ ["Error calling MCP tool " +:+ name +:+
                                ": " +:+ str e];
              next_id := next_id st |})
        else
          (Raise e,
           {| self := self st; trace := tr; log := log st;
              next_id := next_id st |})
    end.
Proof.
  unfold_M. simpl.
  destruct (on_call_tool remote _ _ _ _) as [result|e]; [reflexivity|].
  destruct (is_Exception e); reflexivity.
Qed.

Lemma call_mcp_tool_self tool kwargs st r st' :
  _call_mcp_tool remote tool kwargs st = (r, st') → self st' = self st.
Proof.
  rewrite call_mcp_tool_eq. simpl.
  destruct (on_call_tool remote _ _ _ _) as [result|e].
  - by intros [= _ <-].
  - destruct (is_Exception e); by intros [= _ <-].
Qed.

(** C1. When the session's [call_tool] raises an error [e] (an instance of
    [Exception]), [_call_mcp_tool] raises an [AgentsException] instead: its
    text contains the tool's name and the text of [e], and [e] is its
    [__context__].  And no other error gets out: an instance of [Exception]
    that [_call_mcp_tool] raises is such an [AgentsException], built for
    the exception the session raised, never that exception itself. *)
Theorem call_mcp_tool_wraps_errors
    (tool : MCPTool.t) (kwargs : gmap string json) (st : State) :
  let answer := on_call_tool remote (trace st) (MCPTool._client_session tool)
                             (MCPTool.name tool) kwargs in
  (∀ e,
     answer = Raise e →
     is_Exception e = true →
     ∃ e' st',
       _call_mcp_tool remote tool kwargs st = (Raise e', st') ∧
       exc_class e' = AgentsException ∧
       occurs_in (MCPTool.name tool) (str e') ∧
       occurs_in (str e) (str e') ∧
       __context__ e' = Some e ∧
       e' ≠ e) ∧
  (∀ e' st',
     _call_mcp_tool remote tool kwargs st = (Raise e', st') →
     is_Exception e' = true →
     ∃ e,
       answer = Raise e ∧
       exc_class e' = AgentsException ∧
       occurs_in (MCPTool.name tool) (str e') ∧
       __context__ e' = Some e ∧
       e' ≠ e).
Proof.
  intros answer. split.
  - intros e Hcall Hexc. rewrite call_mcp_tool_eq. simpl. fold answer.
    rewrite Hcall, Hexc. eexists _, _. split; [reflexivity|].
    split; [reflexivity|]. split; [apply occurs_in_middle|].
    split; [do 2 apply occurs_in_append_r; apply occurs_in_end|].
    split; [reflexivity | apply not_own_context].
  - intros e' st'. rewrite call_mcp_tool_eq. simpl. fold answer.
    destruct answer as [result|e]; [discriminate|].
    destruct (is_Exception e) eqn:Hexc.
    + intros [= <- _] _. exists e. split; [reflexivity|].
      split; [reflexivity|]. split; [apply occurs_in_middle|].
      split; [reflexivity | apply not_own_context].
    + intros [= <- _] He'. congruence.
Qed.

End CallTool.

Lemma call_mcp_tool_wraps_errors_witness :
  ∃ e' st',
    _call_mcp_tool Example.all_up Example.say ∅ Example.start
      = (Raise e', st') ∧
    exc_class e' = AgentsException ∧
    occurs_in "say" (str e') ∧
    occurs_in "broken pipe" (str e') ∧
    __context__ e' = Some (Exc ConnectionError "broken pipe" None) ∧
    e' ≠ Exc ConnectionError "broken pipe" None.
Proof.
  apply (proj1 (call_mcp_tool_wraps_errors Example.all_up Example.say ∅
                  Example.start)
           (Exc ConnectionError "broken pipe" None));
    reflexivity.
Defined.

(** ** The session cache *)

Section Registry.

Context (remote : Remote).

Lemma open_transport_eq server_config st :
  open_transport remote server_config st =
    (transport_answer remote (trace st) server_config,
     {| self := self st; trace := trace st ++ [transport_event server_config];
        log := log st; next_id := next_id st |}).
Proof.
  unfold open_transport, transport_answer, transport_event.
  destruct (ServerConfig.base_url server_config) as [url|]; simpl;
    [destruct (negb (url =? ""))%string|]; reflexivity.
Qed.

(** What [_get_or_create_session] does, case by case. *)
Lemma get_or_create_session_eq n st :
  _get_or_create_session remote n st =
    match _sessions (self st) !! n with
    | Some session => (Return session, st)
    | None =>
        match find_server (_servers (self st)) n with
        | None =>
            (Raise (new_exception ValueError
                      ("No server configuration found for " +:+ n)), st)
        | Some server_config =>
            let ev := transport_event server_config in
            match transport_answer remote (trace st ++ [new_event_loop])
                                   server_config with
            | Raise e =>
                (Raise e,
                 {| self := self st;
                    trace := trace st ++ [new_event_loop; ev; loop_close];
                    log := log st; next_id := next_id st |})
            | Return (r, w) =>
                let session := {| session_id := next_id st;
                                  read_stream := r; write_stream := w |} in
                let tr := trace st ++ [new_event_loop; ev;
                                       initialize session; loop_close] in
                match on_initialize remote
                        (trace st ++ [new_event_loop; ev]) session with
                | Raise e =>
                    (Raise e,
                     {| self := self st; trace := tr; log := log st;
                        next_id := S (next_id st) |})
                | Return _ =>
                    (Return session,
                     {| self := set_sessions
                                  (<[n := session]> (_sessions (self st)))
                                  (self st);
                        trace := tr; log := log st;
                        next_id := S (next_id st) |})
                end
            end
        end
    end.
Proof.
  unfold _get_or_create_session. unfold_M. simpl.
  destruct (_sessions (self st) !! n) as [session|]; [reflexivity|].
  destruct (find_server _ n) as [server_config|]; [|reflexivity].
  rewrite open_transport_eq. simpl.
  destruct (transport_answer _ _ _) as [[r w]|e]; simpl.
  - rewrite <- !app_assoc. simpl.
    destruct (on_initialize _ _ _) as [[]|e]; simpl;
      rewrite <- ?app_assoc; reflexivity.
  - rewrite <- !app_assoc. reflexivity.
Qed.

Lemma connection_attempts_app tr1 tr2 :
  connection_attempts (tr1 ++ tr2)
    = connection_attempts tr1 + connection_attempts tr2.
Proof. unfold connection_attempts. by rewrite filter_app, length_app. Qed.

Lemma is_connect_transport_event server_config :
  is_connect (transport_event server_config) = true.
Proof.
  unfold transport_event.
  by destruct (truthy (ServerConfig.base_url server_config)).
Qed.

Lemma connection_attempts_transport_event server_config :
  connection_attempts [transport_event server_config] = 1.
Proof.
  unfold connection_attempts.
  rewrite filter_cons_True by apply is_connect_transport_event.
  reflexivity.
Qed.

(** One construction, completed or not, is one connection attempt. *)
Lemma connection_attempts_construction tr server_config evs :
  connection_attempts evs = 0 →
  connection_attempts (tr ++ new_event_loop :: transport_event server_config
                          :: evs)
    = S (connection_attempts tr).
Proof.
  intros Hevs. rewrite connection_attempts_app.
  change (new_event_loop :: transport_event server_config :: evs)
    with ([new_event_loop] ++ [transport_event server_config] ++ evs).
  rewrite !connection_attempts_app, connection_attempts_transport_event,
    Hevs.
  change (connection_attempts [new_event_loop]) with 0. lia.
Qed.

Lemma find_server_name servers n server_config :
  find_server servers n = Some server_config →
  ServerConfig.name server_config = n ∧ server_config ∈ servers.
Proof.
  unfold find_server. intros H. apply find_some in H as [Hin Heq].
  apply String.eqb_eq in Heq. split; [done|]. by apply list_elem_of_In.
Qed.

Lemma find_server_None servers n :
  find_server servers n = None ↔ n ∉ map ServerConfig.name servers.
Proof.
  unfold find_server. induction servers as [|c servers IH]; simpl.
  - split; [intros _; apply not_elem_of_nil | done].
  - destruct (String.eqb_spec (ServerConfig.name c) n) as [->|Hne].
    + split; [done|]. intros H. destruct H. apply list_elem_of_here.
    + rewrite IH, not_elem_of_cons.
      split; [intros H; split; [by intros -> | done] | by intros [_ H]].
Qed.

Lemma find_server_configured servers n :
  n ∈ map ServerConfig.name servers →
  ∃ server_config, find_server servers n = Some server_config.
Proof.
  intros Hin. destruct (find_server servers n) as [c|] eqn:Hfind; [eauto|].
  by apply find_server_None in Hfind.
Qed.


End Registry.

Section RegistryClaims.

Context (remote : Remote).


(** C5, as the code has it. When opening the transport or the handshake
    fails for a configured server, the exception reaches the caller as it
    was raised, the provider object is unchanged, so nothing was cached,
    and the next call for the name makes a connection attempt again. *)
Theorem failed_session_not_cached
    (n : string) (st : State) (e : exception) (st1 : State) :
  n ∈ map ServerConfig.name (_servers (self st)) →
  _get_or_create_session remote n st = (Raise e, st1) →
  (∃ server_config,
     find_server (_servers (self st)) n = Some server_config ∧
     let h := trace st ++ [new_event_loop] in
     (transport_answer remote h server_config = Raise e ∨
      ∃ r w,
        transport_answer remote h server_config = Return (r, w) ∧
        on_initialize remote (h ++ [transport_event server_config])
          {| session_id := next_id st; read_stream := r;
             write_stream := w |} = Raise e)) ∧
  self st1 = self st ∧
  ∃ r st2,
    _get_or_create_session remote n st1 = (r, st2) ∧
    connection_attempts (trace st2) = S (connection_attempts (trace st1)).
Proof.
  intros Hconf Hcall.
  apply find_server_configured in Hconf as [c Hfind].
  assert (Hself : self st1 = self st ∧ _sessions (self st) !! n = None ∧
                  (transport_answer remote (trace st ++ [new_event_loop]) c
                     = Raise e ∨
                   ∃ r w,
                     transport_answer remote (trace st ++ [new_event_loop]) c
                       = Return (r, w) ∧
                     on_initialize remote
                       ((trace st ++ [new_event_loop]) ++ [transport_event c])
                       {| session_id := next_id st; read_stream := r;
                          write_stream := w |} = Raise e)).
  { rewrite get_or_create_session_eq, Hfind in Hcall.
    destruct (_sessions (self st) !! n) as [s0|]; [discriminate Hcall|].
    simpl in Hcall. rewrite <- app_assoc. simpl.
    destruct (transport_answer _ _ _) as [[r w]|e0].
    - destruct (on_initialize _ _ _) as [[]|e0] eqn:Hinit;
        [discriminate Hcall|].
      injection Hcall as -> <-. split; [reflexivity|].
      split; [reflexivity|]. right. by exists r, w.
    - injection Hcall as -> <-. split; [reflexivity|].
      split; [reflexivity|]. by left. }
  destruct Hself as (Hself & Hnew & Hcause).
  split; [exists c; by split | clear Hcause Hcall].
  split; [exact Hself|].
  rewrite get_or_create_session_eq, Hself, Hnew, Hfind. simpl.
  destruct (transport_answer _ _ _) as [[r w]|e0].
  - destruct (on_initialize _ _ _) as [[]|e0]; eexists _, _;
      (split; [reflexivity|]); simpl;
      by apply connection_attempts_construction.
  - eexists _, _. split; [reflexivity|]. simpl.
    by apply connection_attempts_construction.
Qed.

Lemma get_or_create_session_inv p n st r st' :
  provider_inv p st →
  _get_or_create_session remote n st = (r, st') →
  provider_inv p st'.
Proof.
  intros (Hservers & Hdefault & Hcache) Hcall.
  rewrite get_or_create_session_eq in Hcall.
  destruct (_sessions (self st) !! n) as [s0|] eqn:Hlook.
  { injection Hcall as _ <-. by repeat split. }
  destruct (find_server _ n) as [c|] eqn:Hfind.
  2:{ injection Hcall as _ <-. by repeat split. }
  simpl in Hcall.
  destruct (transport_answer _ _ _) as [[r0 w0]|e].
  2:{ injection Hcall as _ <-. by repeat split. }
  destruct (on_initialize _ _ _) as [[]|e].
  2:{ injection Hcall as _ <-. by repeat split. }
  injection Hcall as _ <-. repeat split; simpl; try done.
  intros m s. unfold cache_configured in Hcache. simpl.
  rewrite lookup_insert. case_decide as Hm.
  - intros _. subst m. apply find_server_name in Hfind as [<- Hin].
    apply list_elem_of_fmap. by exists c.
  - apply Hcache.
Qed.

End RegistryClaims.

(** ** Listing tools *)

Section Listing.

Context (remote : Remote).

(** The loop of [create_mcp_tools] adds one adapted tool per entry, in
    the order of the listing. *)
Lemma wrap_tools_Return session mcp_tools tools result :
  wrap_tools session mcp_tools tools = Return result →
  ∃ new, result = tools ++ new ∧ Forall2 (adapted session) mcp_tools new.
Proof.
  revert tools. induction mcp_tools as [|d rest IH]; intros tools; simpl.
  - intros [= <-]. exists []. by rewrite app_nil_r.
  - destruct (key_name d) as [name|] eqn:Hname; [|discriminate].
    intros H. apply IH in H as (new & -> & Hnew).
    eexists (_ :: new). rewrite <- app_assoc. split; [reflexivity|].
    constructor; [|exact Hnew]. by split.
Qed.

(** What [get_tools_from_server] does, by the result of
    [_get_or_create_session] and the answer to the listing. *)
Lemma get_tools_from_server_eq server_name st :
  get_tools_from_server remote server_name st =
    let n := default (_default_server (self st)) server_name in
    match _get_or_create_session remote n st with
    | (Raise e, st1) => (Raise e, st1)
    | (Return session, st1) =>
        let st2 := {| self := self st1;
                      trace := trace st1 ++ [new_event_loop;
                                             list_tools session; loop_close];
                      log := log st1; next_id := next_id st1 |} in
        match on_list_tools remote (trace st1 ++ [new_event_loop])
                            session with
        | Raise e => (Raise e, st2)
        | Return mcp_tools => (wrap_tools session mcp_tools [], st2)
        end
    end.
Proof.
  unfold_M. simpl.
  destruct (_get_or_create_session remote _ st) as [[session|e] st1];
    [|reflexivity].
  simpl.
  destruct (on_list_tools _ _ _) as [mcp_tools|e]; simpl;
    [destruct (wrap_tools _ _ _); simpl|];
    rewrite <- !app_assoc; reflexivity.
Qed.

Lemma get_tools_from_server_inv p server_name st r st' :
  provider_inv p st →
  get_tools_from_server remote server_name st = (r, st') →
  provider_inv p st'.
Proof.
  intros Hinv. rewrite get_tools_from_server_eq. simpl.
  destruct (_get_or_create_session remote _ st) as [[session|e] st1] eqn:Hs;
    apply (get_or_create_session_inv remote p) in Hs; try done.
  - destruct (on_list_tools _ _ _) as [mcp_tools|e]; by intros [= _ <-].
  - by intros [= _ <-].
Qed.

Lemma get_all_tools_loop_inv p servers all_tools st r st' :
  provider_inv p st →
  get_all_tools_loop remote servers all_tools st = (r, st') →
  provider_inv p st'.
Proof.
  revert all_tools st.
  induction servers as [|server rest IH]; intros all_tools st Hinv; simpl.
  - by intros [= _ <-].
  - unfold mbind, M_bind, bind.
    destruct (get_tools_from_server remote _ st) as [[tools|e] st1] eqn:Ht;
      apply (get_tools_from_server_inv p) in Ht; try done.
    + by apply IH.
    + by intros [= _ <-].
Qed.

(** Every state the provider reaches satisfies [provider_inv]. *)
Lemma reachable_inv p st : reachable remote p st → provider_inv p st.
Proof.
  induction 1 as [tr lg k Hempty | st n r st' _ IH Hcall
                 | st n r st' _ IH Hcall | st r st' _ IH Hcall
                 | st tool kwargs r st' _ IH Hcall].
  - repeat split. intros n s. simpl. by rewrite Hempty, lookup_empty.
  - by apply (get_or_create_session_inv remote p) in Hcall.
  - by apply (get_tools_from_server_inv p) in Hcall.
  - unfold get_all_tools, get_self, mbind, M_bind, bind in Hcall.
    by apply (get_all_tools_loop_inv p) in Hcall.
  - apply call_mcp_tool_self in Hcall. destruct IH as (? & ? & Hc).
    unfold provider_inv, cache_configured. rewrite Hcall. by repeat split.
Qed.

(** C8. In every state the provider reaches, [_get_or_create_session] for
    a name that no configured server has raises the [ValueError] that
    names it (the unknown-server error) and leaves the state as it is: no
    event loop is opened and no connection is attempted. *)
Theorem unknown_server_rejected
    (p : MCPToolProvider.t) (st : State) (n : string) :
  reachable remote p st →
  n ∉ map ServerConfig.name (_servers p) →
  _get_or_create_session remote n st
    = (Raise (Exc ValueError ("No server configuration found for " +:+ n)
                  None), st) ∧
  occurs_in n ("No server configuration found for " +:+ n).
Proof.
  intros Hreach Hunknown. split; [|apply occurs_in_end].
  apply reachable_inv in Hreach as (Hservers & _ & Hcache).
  rewrite get_or_create_session_eq.
  destruct (_sessions (self st) !! n) as [s|] eqn:Hlook.
  { apply Hcache in Hlook. by rewrite Hservers in Hlook. }
  rewrite Hservers. apply find_server_None in Hunknown.
  by rewrite Hunknown.
Qed.


End Listing.

(** ** All servers *)

Section AllTools.

Context (remote : Remote).

Lemma get_all_tools_loop_per_server servers all_tools st lists st' :
  per_server remote servers st lists st' →
  get_all_tools_loop remote servers all_tools st
    = (Return (all_tools ++ concat lists), st').
Proof.
  intros H. revert all_tools.
  induction H as [st | server rest st tools st1 lists st2 Htools _ IH];
    intros all_tools; simpl.
  - by rewrite app_nil_r.
  - unfold mbind, M_bind, bind. rewrite Htools, IH.
    by rewrite <- app_assoc.
Qed.

Lemma get_all_tools_loop_fails before server after all_tools st lists st1
    e st2 :
  per_server remote before st lists st1 →
  get_tools_from_server remote (Some (ServerConfig.name server)) st1
    = (Raise e, st2) →
  get_all_tools_loop remote (before ++ server :: after) all_tools st
    = (Raise e, st2).
Proof.
  intros H Hfail. revert all_tools.
  induction H as [st | first rest st tools st1 lists st' Htools _ IH];
    intros all_tools; simpl; unfold mbind, M_bind, bind.
  - by rewrite Hfail.
  - rewrite Htools. by apply IH.
Qed.

(** The loop either went through all servers or stopped at the first one
    that failed. *)
Lemma get_all_tools_loop_cases servers all_tools st r st' :
  get_all_tools_loop remote servers all_tools st = (r, st') →
  (∃ lists,
     per_server remote servers st lists st' ∧
     r = Return (all_tools ++ concat lists)) ∨
  (∃ before server after lists st1 e,
     servers = before ++ server :: after ∧
     per_server remote before st lists st1 ∧
     get_tools_from_server remote (Some (ServerConfig.name server)) st1
       = (Raise e, st') ∧
     r = Raise e).
Proof.
  revert all_tools st.
  induction servers as [|server rest IH]; intros all_tools st; simpl.
  - intros [= <- <-]. left. exists []. split; [constructor|].
    by rewrite app_nil_r.
  - unfold mbind, M_bind, bind.
    destruct (get_tools_from_server remote _ st) as [[tools|e] st1] eqn:Ht.
    + intros H. apply IH in H
        as [(lists & Hper & ->)
           |(before & s & after & lists & st2 & e & -> & Hper & Hf & ->)].
      * left. exists (tools :: lists). split; [by econstructor|].
        simpl. by rewrite <- app_assoc.
      * right. exists (server :: before), s, after, (tools :: lists), st2, e.
        repeat split; try done. by econstructor.
    + intros [= <- <-]. right. exists [], server, rest, [], st, e.
      repeat split; try done. constructor.
Qed.

(** C2. [get_all_tools] calls [get_tools_from_server] for the configured
    servers in their order, each call starting where the one before
    ended.  When every call returns, the result is the concatenation of
    their lists in that order.  When the call for one server raises, with
    all servers before it done, [get_all_tools] raises that exception: it
    returns no list, and stops in the state of the failure, before any
    server after it is tried.  There is no third case. *)
Theorem get_all_tools_all_or_nothing (st : State) :
  (∀ lists st',
     per_server remote (_servers (self st)) st lists st' →
     get_all_tools remote st = (Return (concat lists), st')) ∧
  (∀ before server after lists st1 e st2,
     _servers (self st) = before ++ server :: after →
     per_server remote before st lists st1 →
     get_tools_from_server remote (Some (ServerConfig.name server)) st1
       = (Raise e, st2) →
     get_all_tools remote st = (Raise e, st2)) ∧
  (∀ r st',
     get_all_tools remote st = (r, st') →
     (∃ lists,
        per_server remote (_servers (self st)) st lists st' ∧
        r = Return (concat lists)) ∨
     (∃ before server after lists st1 e,
        _servers (self st) = before ++ server :: after ∧
        per_server remote before st lists st1 ∧
        get_tools_from_server remote (Some (ServerConfig.name server)) st1
          = (Raise e, st') ∧
        r = Raise e)).
Proof.
  unfold get_all_tools, get_self, mbind, M_bind, bind.
  split; [|split].
  - intros lists st' H.
    by rewrite (get_all_tools_loop_per_server _ [] _ _ _ H).
  - intros before server after lists st1 e st2 -> Hper Hfail.
    by apply (get_all_tools_loop_fails _ _ _ _ _ lists st1).
  - intros r st'. apply get_all_tools_loop_cases.
Qed.


End AllTools.

(** ** Several calls for one name *)

Section Calls.

Context (remote : Remote).





End Calls.

(** ** The example setting *)


Lemma fetch_service_configured :
  "fetch-service" ∈ map ServerConfig.name (_servers (self Example.start)).
Proof. simpl. apply list_elem_of_further, list_elem_of_here. Qed.

Lemma failed_session_not_cached_witness :
  (∃ server_config,
     find_server (_servers (self Example.start)) "fetch-service"
       = Some server_config ∧
     let h := trace Example.start ++ [new_event_loop] in
     (transport_answer Example.fetch_down h server_config
        = Raise Example.refused ∨
      ∃ r w,
        transport_answer Example.fetch_down h server_config = Return (r, w) ∧
        on_initialize Example.fetch_down
          (h ++ [transport_event server_config])
          {| session_id := next_id Example.start; read_stream := r;
             write_stream := w |} = Raise Example.refused)) ∧
  self (_get_or_create_session Example.fetch_down "fetch-service"
          Example.start).2 = self Example.start ∧
  ∃ r st2,
    _get_or_create_session Example.fetch_down "fetch-service"
      (_get_or_create_session Example.fetch_down "fetch-service"
         Example.start).2 = (r, st2) ∧
    connection_attempts (trace st2)
      = S (connection_attempts
             (trace (_get_or_create_session Example.fetch_down "fetch-service"
                       Example.start).2)).
Proof.
  apply (failed_session_not_cached Example.fetch_down "fetch-service"
           Example.start Example.refused).
  - exact fetch_service_configured.
  - reflexivity.
Defined.

(** C5, as stated, fails: the fetch server cannot be started, and what
    [_get_or_create_session] raises is the transport's own exception, with
    no [__context__] and without the server name in its text. *)
Lemma failed_session_raised_unwrapped :
  ∃ st1,
    _get_or_create_session Example.fetch_down "fetch-service" Example.start
      = (Raise Example.refused, st1) ∧
    transport_answer Example.fetch_down
      (trace Example.start ++ [new_event_loop]) Example.fetch_config
      = Raise Example.refused ∧
    __context__ Example.refused = None ∧
    ¬ occurs_in "fetch-service" (str Example.refused) ∧
    ¬ wraps "fetch-service" Example.refused Example.refused.
Proof.
  eexists. split; [reflexivity|]. split; [reflexivity|].
  split; [reflexivity|].
  assert (Hname : ¬ occurs_in "fetch-service" (str Example.refused)).
  { intros H. apply (occurs_in_has_char "h"%char) in H; [|reflexivity].
    discriminate H. }
  split; [exact Hname|]. by intros [_ H].
Qed.

(** C6, as stated, fails: two calls for the say server whose steps
    alternate both find the cache empty, both open a transport, and end
    with two different sessions. *)
Lemma interleaved_calls_connect_twice :
  ∃ st',
    run_schedule Example.all_up [0; 1; 0; 1; 0; 1]
                 [Start "say-service"; Start "say-service"] Example.start
      = ([Finished (Return {| session_id := 0; read_stream := 4;
                              write_stream := 5 |});
          Finished (Return {| session_id := 1; read_stream := 6;
                              write_stream := 7 |})], st') ∧
    connection_attempts (trace st') = 2.
Proof. eexists. split; reflexivity. Qed.


Lemma unknown_server_rejected_witness :
  _get_or_create_session Example.all_up "weather-service" Example.say_cached
    = (Raise (Exc ValueError
                ("No server configuration found for " +:+ "weather-service")
                None), Example.say_cached) ∧
  occurs_in "weather-service"
    ("No server configuration found for " +:+ "weather-service").
Proof.
  apply (unknown_server_rejected Example.all_up Example.provider
           Example.say_cached "weather-service").
  - apply (reach_session Example.all_up Example.provider Example.start
             "say-service" (Return Example.session0) Example.say_cached).
    + by apply (reach_start Example.all_up Example.provider [] [] 0).
    + reflexivity.
  - simpl. intros H.
    apply elem_of_cons in H as [H|H]; [discriminate H|].
    apply elem_of_cons in H as [H|H]; [discriminate H|].
    by apply elem_of_nil in H.
Defined.



Lemma get_all_tools_all_or_nothing_witness :
  (∃ st', get_all_tools Example.all_up Example.start
            = (Return (concat [[Example.say]; [Example.fetch]]), st')) ∧
  (∃ st2, get_all_tools Example.fetch_down Example.start
            = (Raise Example.refused, st2)).
Proof.
  split.
  - eexists.
    apply (get_all_tools_all_or_nothing Example.all_up Example.start).
    simpl. eapply per_server_cons; [vm_compute; reflexivity|].
    eapply per_server_cons; [vm_compute; reflexivity|]. apply per_server_nil.
  - eexists.
    apply (proj1 (proj2 (get_all_tools_all_or_nothing Example.fetch_down
                           Example.start))
             [Example.say_config] Example.fetch_config [] [[Example.say]]
             (get_tools_from_server Example.fetch_down (Some "say-service")
                Example.start).2).
    + reflexivity.
    + eapply per_server_cons; [vm_compute; reflexivity | apply per_server_nil].
    + vm_compute. reflexivity.
Defined.

(** * Further properties of the provider *)

(** ** Counting events *)

Lemma count_nil kind : count kind [] = 0.
Proof. reflexivity. Qed.

Lemma count_cons kind ev tr :
  count kind (ev :: tr) = (if kind ev then 1 else 0) + count kind tr.
Proof.
  unfold count. destruct (kind ev) eqn:Hk.
  - by rewrite filter_cons_True.
  - rewrite filter_cons_False; [done|]. by rewrite Hk.
Qed.

Lemma count_app kind tr1 tr2 :
  count kind (tr1 ++ tr2) = count kind tr1 + count kind tr2.
Proof. unfold count. by rewrite filter_app, length_app. Qed.

Lemma connection_attempts_count tr :
  connection_attempts tr = count is_connect tr.
Proof. reflexivity. Qed.

Lemma transport_event_kind server_config :
  is_connect (transport_event server_config) = true ∧
  is_new_event_loop (transport_event server_config) = false ∧
  is_loop_close (transport_event server_config) = false ∧
  is_list_tools (transport_event server_config) = false ∧
  is_call_tool (transport_event server_config) = false.
Proof.
  unfold transport_event.
  by destruct (truthy (ServerConfig.base_url server_config)).
Qed.

Ltac count_events :=
  unfold loops_balanced; rewrite ?connection_attempts_count;
  rewrite ?count_app, ?count_cons, ?count_nil; simpl;
  repeat match goal with
         | |- context [transport_event ?c] =>
             let H1 := fresh in let H2 := fresh in let H3 := fresh in
             let H4 := fresh in let H5 := fresh in
             destruct (transport_event_kind c) as (H1 & H2 & H3 & H4 & H5);
             rewrite ?H1, ?H2, ?H3, ?H4, ?H5; clear H1 H2 H3 H4 H5
         end;
  simpl; try lia.

(** ** What one call does to the state *)

Section Effects.

Context (remote : Remote).

(** [_get_or_create_session] only adds events: none when the session is
    cached, otherwise those of one construction, with its event loop
    closed whether the construction succeeded or not.  It writes no log
    line. *)
Lemma get_or_create_session_events n st r st' :
  _get_or_create_session remote n st = (r, st') →
  ∃ evs,
    trace st' = trace st ++ evs ∧ log st' = log st ∧
    loops_balanced evs ∧
    connection_attempts evs ≤ 1 ∧
    count is_list_tools evs = 0 ∧ count is_call_tool evs = 0 ∧
    (is_Some (_sessions (self st) !! n) → evs = []).
Proof.
  rewrite get_or_create_session_eq.
  destruct (_sessions (self st) !! n) as [s|] eqn:Hlook.
  { intros [= _ <-]. exists []. rewrite app_nil_r.
    repeat split; try done. count_events. }
  destruct (find_server _ n) as [c|].
  2:{ intros [= _ <-]. exists []. rewrite app_nil_r.
      repeat split; try done. count_events. }
  simpl. destruct (transport_answer _ _ _) as [[r0 w0]|e].
  - destruct (on_initialize _ _ _) as [[]|e]; intros [= _ <-]; simpl;
      eexists; (split; [reflexivity|]); (split; [reflexivity|]);
      (repeat split; [count_events..|by intros [? [=]]]).
  - intros [= _ <-]. simpl.
    eexists; (split; [reflexivity|]); (split; [reflexivity|]);
      (repeat split; [count_events..|by intros [? [=]]]).
Qed.

(** [_get_or_create_session] changes nothing of the provider but the
    cache, keeps every cached session, and uses up at most one object
    identity, the one of the session it stores. *)
Lemma get_or_create_session_cache n st r st' :
  _get_or_create_session remote n st = (r, st') →
  _servers (self st') = _servers (self st) ∧
  _default_server (self st') = _default_server (self st) ∧
  _anthropic_api_key (self st') = _anthropic_api_key (self st) ∧
  _sessions (self st) ⊆ _sessions (self st') ∧
  next_id st ≤ next_id st' ∧
  (∀ m s, _sessions (self st') !! m = Some s →
          _sessions (self st) !! m = Some s ∨
          (m = n ∧ _sessions (self st) !! n = None ∧
           session_id s = next_id st ∧ next_id st' = S (next_id st))).
Proof.
  rewrite get_or_create_session_eq.
  destruct (_sessions (self st) !! n) as [s0|] eqn:Hlook.
  { intros [= _ <-]. repeat split; try done. by left. }
  destruct (find_server _ n) as [c|].
  2:{ intros [= _ <-]. repeat split; try done. by left. }
  simpl. destruct (transport_answer _ _ _) as [[r0 w0]|e].
  2:{ intros [= _ <-]. repeat split; try done. by left. }
  destruct (on_initialize _ _ _) as [[]|e].
  2:{ intros [= _ <-]. simpl. repeat split; try done; [lia | by left]. }
  intros [= _ <-]. simpl. repeat split; try done.
  - by apply insert_subseteq.
  - lia.
  - intros m s. rewrite lookup_insert. case_decide as Hm.
    + intros [= <-]. subst m. by right.
    + by left.
Qed.

End Effects.

Section MoreEffects.

Context (remote : Remote).

(** [get_tools_from_server] is [_get_or_create_session] followed, when
    that returned a session, by one listing in an event loop of its own. *)
Lemma get_tools_from_server_state server_name st r st' :
  get_tools_from_server remote server_name st = (r, st') →
  ∃ r1 st1 evs,
    _get_or_create_session remote
      (default (_default_server (self st)) server_name) st = (r1, st1) ∧
    self st' = self st1 ∧ next_id st' = next_id st1 ∧ log st' = log st1 ∧
    trace st' = trace st1 ++ evs ∧
    ((evs = [] ∧ ∃ e, r1 = Raise e ∧ r = Raise e) ∨
     (∃ session, r1 = Return session ∧
                 evs = [new_event_loop; list_tools session; loop_close])).
Proof.
  rewrite get_tools_from_server_eq. simpl.
  destruct (_get_or_create_session remote _ st) as [[session|e] st1].
  - intros H. exists (Return session), st1,
      [new_event_loop; list_tools session; loop_close].
    split; [reflexivity|].
    destruct (on_list_tools _ _ _) as [mcp_tools|e];
      injection H as _ <-; repeat split; right; by exists session.
  - intros [= <- <-]. exists (Raise e), st1, []. rewrite app_nil_r.
    repeat split. left. split; [done|]. by exists e.
Qed.

Lemma get_tools_from_server_events server_name st r st' :
  get_tools_from_server remote server_name st = (r, st') →
  ∃ evs,
    trace st' = trace st ++ evs ∧ log st' = log st ∧
    loops_balanced evs ∧
    connection_attempts evs ≤ 1 ∧
    count is_list_tools evs ≤ 1 ∧ count is_call_tool evs = 0 ∧
    (is_Some (_sessions (self st)
                !! default (_default_server (self st)) server_name) →
     connection_attempts evs = 0).
Proof.
  intros H. apply get_tools_from_server_state in H
    as (r1 & st1 & evs2 & Hs & _ & _ & Hlog & Htr & Hevs).
  apply get_or_create_session_events in Hs
    as (evs1 & Htr1 & Hlog1 & Hbal & Hconn & Hlist & Hcall & Hcached).
  exists (evs1 ++ evs2). rewrite Htr, Htr1, Hlog, Hlog1, app_assoc.
  split; [done|]. split; [done|]. unfold loops_balanced in *.
  rewrite connection_attempts_count in *. rewrite !count_app.
  destruct Hevs as [[-> _] | (session & _ & ->)]; count_events;
    (repeat split; try lia); intros Hc; by rewrite (Hcached Hc).
Qed.

Lemma get_tools_from_server_cache server_name st r st' :
  get_tools_from_server remote server_name st = (r, st') →
  let n := default (_default_server (self st)) server_name in
  _servers (self st') = _servers (self st) ∧
  _default_server (self st') = _default_server (self st) ∧
  _anthropic_api_key (self st') = _anthropic_api_key (self st) ∧
  _sessions (self st) ⊆ _sessions (self st') ∧
  next_id st ≤ next_id st' ∧
  (∀ m s, _sessions (self st') !! m = Some s →
          _sessions (self st) !! m = Some s ∨
          (m = n ∧ _sessions (self st) !! n = None ∧
           session_id s = next_id st ∧ next_id st' = S (next_id st))).
Proof.
  intros H. apply get_tools_from_server_state in H
    as (r1 & st1 & evs2 & Hs & Hself & Hid & _).
  rewrite Hself, Hid. by apply get_or_create_session_cache in Hs.
Qed.

(** One step of the kind the two lemmas above describe keeps the sessions
    distinct. *)
Lemma sessions_distinct_step n st st' :
  next_id st ≤ next_id st' →
  (∀ m s, _sessions (self st') !! m = Some s →
          _sessions (self st) !! m = Some s ∨
          (m = n ∧ _sessions (self st) !! n = None ∧
           session_id s = next_id st ∧ next_id st' = S (next_id st))) →
  sessions_distinct st → sessions_distinct st'.
Proof.
  intros Hle Hdelta [Hbound Hinj]. split.
  - intros m s Hm. destruct (Hdelta m s Hm) as [Hold | (_ & _ & Hid & Hnext)].
    + apply Hbound in Hold. lia.
    + lia.
  - intros n1 n2 s1 s2 H1 H2 Hid.
    destruct (Hdelta n1 s1 H1) as [Hold1 | (-> & _ & Hid1 & _)],
             (Hdelta n2 s2 H2) as [Hold2 | (-> & _ & Hid2 & _)].
    + by apply (Hinj n1 n2 s1 s2).
    + apply Hbound in Hold1. lia.
    + apply Hbound in Hold2. lia.
    + reflexivity.
Qed.

Lemma get_all_tools_loop_events servers all_tools st r st' :
  get_all_tools_loop remote servers all_tools st = (r, st') →
  ∃ evs,
    trace st' = trace st ++ evs ∧ log st' = log st ∧
    loops_balanced evs ∧
    connection_attempts evs ≤ length servers ∧
    count is_list_tools evs ≤ length servers ∧
    count is_call_tool evs = 0.
Proof.
  revert all_tools st.
  induction servers as [|server rest IH]; intros all_tools st; simpl.
  - intros [= _ <-]. exists []. rewrite app_nil_r.
    repeat split; try done; count_events.
  - unfold mbind, M_bind, bind.
    destruct (get_tools_from_server remote _ st) as [[tools|e] st1] eqn:Ht;
      apply get_tools_from_server_events in Ht
        as (evs1 & Htr1 & Hlog1 & Hbal1 & Hconn1 & Hlist1 & Hcall1 & _).
    + intros H. apply IH in H
        as (evs2 & Htr2 & Hlog2 & Hbal2 & Hconn2 & Hlist2 & Hcall2).
      exists (evs1 ++ evs2). rewrite Htr2, Htr1, Hlog2, Hlog1, app_assoc.
      unfold loops_balanced in *. rewrite connection_attempts_count in *.
      rewrite !count_app. repeat split; lia.
    + intros [= _ <-]. exists evs1. repeat split; try done; lia.
Qed.

Lemma get_all_tools_loop_cache servers all_tools st r st' :
  get_all_tools_loop remote servers all_tools st = (r, st') →
  _servers (self st') = _servers (self st) ∧
  _default_server (self st') = _default_server (self st) ∧
  _anthropic_api_key (self st') = _anthropic_api_key (self st) ∧
  _sessions (self st) ⊆ _sessions (self st') ∧
  next_id st ≤ next_id st' ∧
  (sessions_distinct st → sessions_distinct st').
Proof.
  revert all_tools st.
  induction servers as [|server rest IH]; intros all_tools st; simpl.
  - by intros [= _ <-].
  - unfold mbind, M_bind, bind.
    destruct (get_tools_from_server remote _ st) as [[tools|e] st1] eqn:Ht;
      apply get_tools_from_server_cache in Ht
        as (Hs1 & Hd1 & Hk1 & Hsub1 & Hid1 & Hdelta1).
    + intros H. apply IH in H as (Hs2 & Hd2 & Hk2 & Hsub2 & Hid2 & Hdist2).
      rewrite Hs2, Hd2, Hk2. split_and!; try done.
      * by transitivity (_sessions (self st1)).
      * lia.
      * intros Hdist. apply Hdist2. by eapply sessions_distinct_step.
    + intros [= _ <-]. split_and!; try done.
      intros Hdist. by eapply sessions_distinct_step.
Qed.

End MoreEffects.

(** ** Construction *)

(** X1. [MCPToolProvider(...)] returns a provider exactly when an API key
    is at hand and the server list is not empty.  The key is the argument
    when that is a non-empty string and the environment's
    [ANTHROPIC_API_KEY] otherwise; a missing key is reported before a
    missing server list.  The provider returned has the servers in their
    order and an empty session cache: constructing it connects to
    nothing. *)
Theorem provider_init_cases
    (environ : gmap string string) (servers : option (list ServerConfig.t))
    (default_server anthropic_api_key : option string) :
  let key := if truthy anthropic_api_key then anthropic_api_key
             else environ !! "ANTHROPIC_API_KEY" in
  match MCPToolProvider.__init__ environ servers default_server
                                 anthropic_api_key with
  | Raise e =>
      exc_class e = ValueError ∧
      (truthy key = false ∧
       str e = "Anthropic API key must be provided for MCP integration" ∨
       truthy key = true ∧ default [] servers = [] ∧
       str e = "At least one MCP server must be configured")
  | Return p =>
      truthy key = true ∧
      _anthropic_api_key p = key ∧
      servers = Some (_servers p) ∧ _servers p ≠ [] ∧
      _sessions p = ∅ ∧
      (truthy default_server = true → default_server = Some (_default_server p))
  end.
Proof.
  unfold MCPToolProvider.__init__, py_or. simpl.
  destruct (truthy (if truthy anthropic_api_key then _ else _)) eqn:Hkey;
    simpl; [|split; [done|by left]].
  destruct servers as [[|first rest]|]; simpl;
    try (split; [done|by right]).
  split_and!; try done.
  destruct default_server as [d|]; [|done]. simpl. by intros ->.
Qed.

(** X2. The transport of a constructed [ServerConfig] follows which of the
    two it was given.  With a non-empty [base_url], opening the transport is
    one [http_client] request with that address and the api key.  With no
    [base_url], the configuration has a command, and opening the transport
    is one [stdio_client] request with that command and the arguments and
    environment of the configuration, the empty list and dict when none
    were given.  (An empty [base_url] is left out here.) *)
Theorem transport_follows_config
    (remote : Remote) (name : string)
    (base_url api_key command : option string)
    (args : option (list string)) (env : option (gmap string string))
    (c : ServerConfig.t) (st : State) :
  ServerConfig.__init__ name base_url api_key command args env = Return c →
  base_url ≠ Some "" →
  match base_url with
  | Some url =>
      command = None ∧
      trace (open_transport remote c st).2
        = trace st ++ [http_client url api_key]
  | None =>
      ∃ cmd,
        command = Some cmd ∧
        trace (open_transport remote c st).2
          = trace st ++ [stdio_client {| sp_command := Some cmd;
                                         sp_args := default [] args;
                                         sp_env := default ∅ env |}]
  end.
Proof.
  intros H Hurl. apply ServerConfig_init_Return in H as [-> Hone].
  rewrite open_transport_eq. simpl. unfold transport_event. simpl.
  destruct base_url as [url|]; simpl.
  - destruct Hone as [[_ ->] | [[=] _]]. split; [reflexivity|].
    destruct (String.eqb_spec url "") as [->|_]; [by destruct Hurl|].
    reflexivity.
  - destruct Hone as [[[? [=]] _] | [_ [cmd ->]]]. by exists cmd.
Qed.

Lemma transport_follows_config_witness :
  ((None : option string) = None ∧
   trace (open_transport Example.all_up
            (ServerConfig.mk "remote" (Some "http://localhost:8000")
                             (Some "key") None [] ∅)
            Example.start).2
     = trace Example.start
         ++ [http_client "http://localhost:8000" (Some "key")]) ∧
  ∃ cmd,
    Some "python" = Some cmd ∧
    trace (open_transport Example.all_up Example.say_config Example.start).2
      = trace Example.start
          ++ [stdio_client
                {| sp_command := Some cmd;
                   sp_args := default [] (Some ["examples/mcp/say_server.py"]);
                   sp_env := default ∅ None |}].
Proof.
  split.
  - apply (transport_follows_config Example.all_up "remote"
             (Some "http://localhost:8000") (Some "key") None None None
             (ServerConfig.mk "remote" (Some "http://localhost:8000")
                              (Some "key") None [] ∅)
             Example.start); [reflexivity | discriminate].
  - apply (transport_follows_config Example.all_up "say-service" None None
             (Some "python") (Some ["examples/mcp/say_server.py"]) None
             Example.say_config Example.start); [reflexivity | discriminate].
Defined.

(** X3. [find_server] gives the first server of the list with the name:
    a later server with a name that occurs before it is never found. *)
Theorem find_server_first_match
    (servers : list ServerConfig.t) (n : string) (c : ServerConfig.t) :
  find_server servers n = Some c ↔
  ∃ before after,
    servers = before ++ c :: after ∧ ServerConfig.name c = n ∧
    n ∉ map ServerConfig.name before.
Proof.
  unfold find_server. induction servers as [|s servers IH]; simpl.
  - split; [done|]. intros (before & after & H & _). by destruct before.
  - destruct (String.eqb_spec (ServerConfig.name s) n) as [Hs|Hs].
    + split.
      * intros [= ->]. exists [], servers. split_and!; try done.
        apply not_elem_of_nil.
      * intros ([|b before] & after & H & Hn & Hnot); simpl in H.
        -- by injection H as ->.
        -- injection H as -> _. destruct Hnot. simpl. rewrite Hs.
           apply list_elem_of_here.
    + rewrite IH. split.
      * intros (before & after & -> & Hn & Hnot).
        exists (s :: before), after. split_and!; try done.
        simpl. rewrite not_elem_of_cons. by split; [intros ->|].
      * intros ([|b before] & after & H & Hn & Hnot); simpl in H.
        -- injection H as -> _. by destruct Hs.
        -- injection H as -> ->. exists before, after. split_and!; try done.
           simpl in Hnot. by apply not_elem_of_cons in Hnot as [_ ?].
Qed.

(** ** Adapting a listing *)

Lemma wrap_tools_named session mcp_tools tools :
  Forall (λ d, is_Some (key_name d)) mcp_tools →
  ∃ new, wrap_tools session mcp_tools tools = Return (tools ++ new) ∧
         Forall2 (adapted session) mcp_tools new.
Proof.
  intros H. revert tools.
  induction H as [|d rest [name Hname] _ IH]; intros tools; simpl.
  - exists []. by rewrite app_nil_r.
  - rewrite Hname. destruct (IH (tools ++ [MCPTool.__init__ name
      (default "" (key_description d)) session d])) as (new & -> & Hnew).
    eexists (_ :: new). rewrite <- app_assoc. split; [reflexivity|].
    constructor; [by split | exact Hnew].
Qed.

Lemma wrap_tools_unnamed session mcp_tools tools :
  Exists (λ d, key_name d = None) mcp_tools →
  wrap_tools session mcp_tools tools = Raise (new_exception KeyError "'name'").
Proof.
  intros H. revert tools.
  induction mcp_tools as [|d rest IH]; intros tools; [by inversion H|].
  simpl. destruct (key_name d) as [name|] eqn:Hname; [|reflexivity].
  apply IH. inversion H as [? ? Hd | ? ? Hrest]; [congruence | exact Hrest].
Qed.

Lemma adapted_fields session d tool :
  adapted session d tool →
  MCPTool._client_session tool = session ∧
  MCPTool.description tool = default "" (key_description d) ∧
  MCPTool._mcp_schema tool = d ∧
  fs_name (MCPTool.schema tool) = MCPTool.name tool ∧
  fs_parameters (MCPTool.schema tool)
    = default (JObj []) (key_parameters d).
Proof. intros [_ ->]. by repeat split. Qed.

(** X4. [create_mcp_tools] is all or nothing.  When every listed entry has
    a ["name"], it returns one tool per entry, in the order of the listing,
    each bound to the session, with the entry's description (the empty
    string when there is none) and the entry's parameters as the schema
    (the empty object when there are none).  When some entry has no
    ["name"], it raises [KeyError] and returns none of the tools, whatever
    came before that entry.  Either way exactly one [list_tools] request
    was made. *)
Theorem create_mcp_tools_all_or_nothing
    (remote : Remote) (session : ClientSession) (st : State)
    (mcp_tools : list tool_dict) :
  on_list_tools remote (trace st) session = Return mcp_tools →
  trace (create_mcp_tools remote session st).2
    = trace st ++ [list_tools session] ∧
  (Forall (λ d, is_Some (key_name d)) mcp_tools →
     ∃ tools,
       (create_mcp_tools remote session st).1 = Return tools ∧
       length tools = length mcp_tools ∧
       Forall2 (λ d tool,
                  key_name d = Some (MCPTool.name tool) ∧
                  MCPTool._client_session tool = session ∧
                  MCPTool.description tool
                    = default "" (key_description d) ∧
                  fs_parameters (MCPTool.schema tool)
                    = default (JObj []) (key_parameters d))
               mcp_tools tools) ∧
  (Exists (λ d, key_name d = None) mcp_tools →
     (create_mcp_tools remote session st).1
       = Raise (Exc KeyError "'name'" None)).
Proof.
  intros Hlist. unfold create_mcp_tools. unfold_M. simpl. rewrite Hlist.
  split; [reflexivity|]. split.
  - intros Hnamed.
    destruct (wrap_tools_named session mcp_tools [] Hnamed)
      as (tools & Hwrap & Hadapted).
    simpl in Hwrap. rewrite Hwrap. exists tools. split; [reflexivity|].
    split; [symmetry; by eapply Forall2_length|].
    eapply Forall2_impl; [exact Hadapted|].
    intros d tool Had. pose proof (adapted_fields _ _ _ Had) as (? & ? & ? & ? & ?).
    destruct Had as [Hname _]. by repeat split.
  - intros Hun. by rewrite (wrap_tools_unnamed session mcp_tools [] Hun).
Qed.

Lemma create_mcp_tools_all_or_nothing_witness :
  (∃ tools,
     (create_mcp_tools Example.all_up Example.session0 Example.start).1
       = Return tools ∧
     length tools = length [Example.say_tool] ∧
     Forall2 (λ d tool,
                key_name d = Some (MCPTool.name tool) ∧
                MCPTool._client_session tool = Example.session0 ∧
                MCPTool.description tool = default "" (key_description d) ∧
                fs_parameters (MCPTool.schema tool)
                  = default (JObj []) (key_parameters d))
             [Example.say_tool] tools) ∧
  (create_mcp_tools Example.bad_listing Example.session0 Example.start).1
    = Raise (Exc KeyError "'name'" None).
Proof.
  split.
  - apply (create_mcp_tools_all_or_nothing Example.all_up Example.session0
             Example.start [Example.say_tool]); [reflexivity|].
    constructor; [by eexists | constructor].
  - apply (create_mcp_tools_all_or_nothing Example.bad_listing
             Example.session0 Example.start
             [Example.say_tool; Example.unnamed_tool]); [reflexivity|].
    apply Exists_cons_tl, Exists_cons_hd. reflexivity.
Defined.

(** ** Calling a tool *)

(** X5. [_call_mcp_tool] makes exactly one [call_tool] request, on the
    tool's session, under the tool's name, with the arguments as given,
    and does not touch the provider or retry.  A result is returned as it
    is and nothing is logged.  An exception that is not an [Exception]
    (a cancellation, say) passes through as it is, not logged and not
    turned into an [AgentsException].  An [Exception] is logged in one
    line that names the tool. *)
Theorem call_mcp_tool_one_request
    (remote : Remote) (tool : MCPTool.t) (kwargs : gmap string json)
    (st : State) :
  let answer := on_call_tool remote (trace st) (MCPTool._client_session tool)
                             (MCPTool.name tool) kwargs in
  let r := (_call_mcp_tool remote tool kwargs st).1 in
  let st' := (_call_mcp_tool remote tool kwargs st).2 in
  trace st' = trace st ++ [call_tool (MCPTool._client_session tool)
                                     (MCPTool.name tool) kwargs] ∧
  self st' = self st ∧ next_id st' = next_id st ∧
  match answer with
  | Return result => r = Return result ∧ log st' = log st
  | Raise e =>
      if is_Exception e then
        log st' = log st ++ ["Error calling MCP tool " +:+ MCPTool.name tool
                             +:+ ": " +:+ str e]
      else r = Raise e ∧ log st' = log st
  end.
Proof.
  simpl. rewrite call_mcp_tool_eq. simpl.
  destruct (on_call_tool remote _ _ _ _) as [result|e]; [done|].
  by destruct (is_Exception e).
Qed.

(** ** What every call keeps *)

Section Kept.

Context (remote : Remote).

Lemma call_mcp_tool_state tool kwargs st r st' :
  _call_mcp_tool remote tool kwargs st = (r, st') →
  self st' = self st ∧ next_id st' = next_id st ∧
  trace st' = trace st ++ [call_tool (MCPTool._client_session tool)
                                     (MCPTool.name tool) kwargs].
Proof.
  rewrite call_mcp_tool_eq. simpl.
  destruct (on_call_tool remote _ _ _ _) as [result|e].
  - by intros [= _ <-].
  - destruct (is_Exception e); by intros [= _ <-].
Qed.

(** X6. No call evicts or replaces a cached session: whatever method of
    the provider runs, and whether it returns or raises, and also when a
    tool call fails, every session that was in the cache is still there
    under its name, and the server list and the default server are what
    they were. *)
Theorem method_call_keeps_cache (st st' : State) :
  method_call remote st st' →
  _sessions (self st) ⊆ _sessions (self st') ∧
  _servers (self st') = _servers (self st) ∧
  _default_server (self st') = _default_server (self st).
Proof.
  intros [n st0 r st0' H | n st0 r st0' H | st0 r st0' H
         | tool kwargs st0 r st0' H].
  - by apply get_or_create_session_cache in H as (? & ? & _ & ? & _).
  - by apply get_tools_from_server_cache in H as (? & ? & _ & ? & _).
  - unfold get_all_tools, get_self, mbind, M_bind, bind in H.
    by apply get_all_tools_loop_cache in H as (? & ? & _ & ? & _).
  - apply call_mcp_tool_state in H as (-> & _). by split_and!.
Qed.

(** X7. Every call only appends to the history, and leaves no event loop
    open: among the events it adds there are as many [loop.close()] as
    [new_event_loop()], also when the call raises. *)
Theorem method_call_closes_loops (st st' : State) :
  method_call remote st st' →
  ∃ evs, trace st' = trace st ++ evs ∧ loops_balanced evs.
Proof.
  intros [n st0 r st0' H | n st0 r st0' H | st0 r st0' H
         | tool kwargs st0 r st0' H].
  - apply get_or_create_session_events in H as (evs & ? & _ & ? & _).
    by exists evs.
  - apply get_tools_from_server_events in H as (evs & ? & _ & ? & _).
    by exists evs.
  - unfold get_all_tools, get_self, mbind, M_bind, bind in H.
    apply get_all_tools_loop_events in H as (evs & ? & _ & ? & _).
    by exists evs.
  - apply call_mcp_tool_state in H as (_ & _ & ->). eexists.
    split; [reflexivity|]. reflexivity.
Qed.

Lemma method_call_sessions_distinct st st' :
  method_call remote st st' → sessions_distinct st → sessions_distinct st'.
Proof.
  intros [n st0 r st0' H | n st0 r st0' H | st0 r st0' H
         | tool kwargs st0 r st0' H].
  - apply get_or_create_session_cache in H as (_ & _ & _ & _ & ? & ?).
    by eapply sessions_distinct_step.
  - apply get_tools_from_server_cache in H as (_ & _ & _ & _ & ? & ?).
    by eapply sessions_distinct_step.
  - unfold get_all_tools, get_self, mbind, M_bind, bind in H.
    by apply get_all_tools_loop_cache in H as (_ & _ & _ & _ & _ & ?).
  - apply call_mcp_tool_state in H as (Hself & Hid & _).
    unfold sessions_distinct. by rewrite Hself, Hid.
Qed.

Lemma reachable_distinct p st :
  reachable remote p st → sessions_distinct st.
Proof.
  induction 1 as [tr lg k Hempty | st n r st' _ IH Hcall
                 | st n r st' _ IH Hcall | st r st' _ IH Hcall
                 | st tool kwargs r st' _ IH Hcall].
  - split; simpl; intros ?; intros; rewrite Hempty, lookup_empty in *; done.
  - eapply method_call_sessions_distinct; [|exact IH]. by econstructor 1.
  - eapply method_call_sessions_distinct; [|exact IH]. by econstructor 2.
  - eapply method_call_sessions_distinct; [|exact IH]. by econstructor 3.
  - eapply method_call_sessions_distinct; [|exact IH]. by econstructor 4.
Qed.

(** X8. In every state the provider reaches, no two server names share a
    session object: sessions cached under different names have different
    identities, so every one of them was built for its own name. *)
Theorem reachable_sessions_distinct
    (p : MCPToolProvider.t) (st : State) (n1 n2 : string)
    (s1 s2 : ClientSession) :
  reachable remote p st →
  _sessions (self st) !! n1 = Some s1 →
  _sessions (self st) !! n2 = Some s2 →
  n1 ≠ n2 →
  session_id s1 ≠ session_id s2.
Proof.
  intros Hreach H1 H2 Hne Hid. apply Hne.
  apply reachable_distinct in Hreach as [_ Hinj].
  by apply (Hinj n1 n2 s1 s2).
Qed.

End Kept.

(** ** Listing again, and listing all *)

Section Listings.

Context (remote : Remote).

Lemma get_or_create_session_Return n st session st' :
  _get_or_create_session remote n st = (Return session, st') →
  _sessions (self st') !! n = Some session.
Proof.
  rewrite get_or_create_session_eq.
  destruct (_sessions (self st) !! n) as [s0|] eqn:Hlook.
  { by intros [= <- <-]. }
  destruct (find_server _ n) as [c|]; [|discriminate].
  simpl. destruct (transport_answer _ _ _) as [[r0 w0]|e]; [|discriminate].
  destruct (on_initialize _ _ _) as [[]|e]; [|discriminate].
  intros [= <- <-]. simpl. apply lookup_insert_eq.
Qed.

(** With the session in the cache, [get_tools_from_server] is one listing
    on it. *)
Lemma get_tools_from_server_cached n session st :
  _sessions (self st) !! n = Some session →
  get_tools_from_server remote (Some n) st =
    (match on_list_tools remote (trace st ++ [new_event_loop]) session with
     | Return mcp_tools => wrap_tools session mcp_tools []
     | Raise e => Raise e
     end,
     {| self := self st;
        trace := trace st ++ [new_event_loop; list_tools session; loop_close];
        log := log st; next_id := next_id st |}).
Proof.
  intros Hcached. rewrite get_tools_from_server_eq. simpl.
  rewrite get_or_create_session_eq, Hcached.
  by destruct (on_list_tools _ _ _).
Qed.

(** X9. The listing is not cached: with the session in the cache, every
    call of [get_tools_from_server] asks the server for its tools again, on
    that session, in an event loop of its own, and connects to nothing.
    Two calls in a row make two [list_tools] requests, and each returns
    what the server answered that time. *)
Theorem get_tools_from_server_lists_again
    (n : string) (session : ClientSession) (st : State) :
  _sessions (self st) !! n = Some session →
  let first := get_tools_from_server remote (Some n) st in
  let second := get_tools_from_server remote (Some n) first.2 in
  let adapt answer :=
    match answer with
    | Return mcp_tools => wrap_tools session mcp_tools []
    | Raise e => Raise e
    end in
  trace second.2
    = trace st ++ [new_event_loop; list_tools session; loop_close;
                   new_event_loop; list_tools session; loop_close] ∧
  self second.2 = self st ∧
  first.1 = adapt (on_list_tools remote (trace st ++ [new_event_loop])
                                 session) ∧
  second.1 = adapt (on_list_tools remote
                      (trace st ++ [new_event_loop; list_tools session;
                                    loop_close; new_event_loop])
                      session).
Proof.
  intros Hcached. simpl.
  rewrite (get_tools_from_server_cached n session st Hcached). simpl.
  rewrite (get_tools_from_server_cached n session) by exact Hcached. simpl.
  rewrite <- !app_assoc. simpl. by split_and!.
Qed.

(** X10. A listing that fails does not undo the session: when the session
    was obtained and [list_tools] raises, [get_tools_from_server] raises
    that exception as it is, with the session still in the cache; the next
    call lists on the same session again and makes no connection
    attempt. *)
Theorem failed_listing_keeps_session
    (n : string) (st : State) (session : ClientSession) (st1 : State)
    (e : exception) :
  _get_or_create_session remote n st = (Return session, st1) →
  on_list_tools remote (trace st1 ++ [new_event_loop]) session = Raise e →
  ∃ st',
    get_tools_from_server remote (Some n) st = (Raise e, st') ∧
    _sessions (self st') !! n = Some session ∧
    trace (get_tools_from_server remote (Some n) st').2
      = trace st' ++ [new_event_loop; list_tools session; loop_close].
Proof.
  intros Hs Hlist. rewrite get_tools_from_server_eq. simpl.
  rewrite Hs, Hlist. eexists. split; [reflexivity|].
  apply get_or_create_session_Return in Hs. simpl. split; [exact Hs|].
  by rewrite (get_tools_from_server_cached n session).
Qed.

Lemma get_tools_from_server_Return server_name st tools st' :
  get_tools_from_server remote server_name st = (Return tools, st') →
  ∃ session,
    _sessions (self st')
      !! default (_default_server (self st)) server_name = Some session ∧
    Forall (λ tool, MCPTool._client_session tool = session) tools.
Proof.
  rewrite get_tools_from_server_eq. simpl.
  destruct (_get_or_create_session remote _ st) as [[session|e] st1] eqn:Hs;
    [|discriminate].
  destruct (on_list_tools _ _ _) as [mcp_tools|e]; [|discriminate].
  intros [= Hwrap <-]. exists session. simpl.
  split; [by apply get_or_create_session_Return in Hs|].
  apply wrap_tools_Return in Hwrap as (new & -> & Hnew). simpl.
  clear Hs. induction Hnew as [|d tool ds tools' Had _ IH]; constructor.
  - by apply adapted_fields in Had as [? _].
  - exact IH.
Qed.

(** X11. A tool that [get_tools_from_server] returned calls the server it
    was listed from: whenever it is called, its one [call_tool] request
    goes to the session that is in the cache under that server's name,
    under the tool's name and with the arguments of the call. *)
Theorem listed_tool_calls_its_server
    (server_name : option string) (st : State) (tools : list MCPTool.t)
    (st1 : State) (tool : MCPTool.t) :
  get_tools_from_server remote server_name st = (Return tools, st1) →
  tool ∈ tools →
  ∃ session,
    _sessions (self st1)
      !! default (_default_server (self st)) server_name = Some session ∧
    ∀ kwargs st2,
      trace (_call_mcp_tool remote tool kwargs st2).2
        = trace st2 ++ [call_tool session (MCPTool.name tool) kwargs].
Proof.
  intros Hget Hin.
  apply get_tools_from_server_Return in Hget as (session & Hcached & Hall).
  exists session. split; [exact Hcached|]. intros kwargs st2.
  rewrite Forall_forall in Hall. rewrite <- (Hall tool Hin).
  destruct (_call_mcp_tool remote tool kwargs st2) as [r st3] eqn:Hcall.
  by apply call_mcp_tool_state in Hcall as (_ & _ & ?).
Qed.

End Listings.

(** ** All servers, once and again *)

Section AllServers.

Context (remote : Remote).

(** X12. [get_tools_from_server] makes at most one connection attempt and
    at most one listing, and [get_all_tools] at most one of each for every
    configured server; neither calls a tool nor writes to the log. *)
Theorem listing_cost_bounded (st : State) :
  (∀ server_name r st',
     get_tools_from_server remote server_name st = (r, st') →
     connection_attempts (trace st') ≤ connection_attempts (trace st) + 1 ∧
     count is_list_tools (trace st') ≤ count is_list_tools (trace st) + 1 ∧
     count is_call_tool (trace st') = count is_call_tool (trace st) ∧
     log st' = log st) ∧
  (∀ r st',
     get_all_tools remote st = (r, st') →
     connection_attempts (trace st')
       ≤ connection_attempts (trace st) + length (_servers (self st)) ∧
     count is_list_tools (trace st')
       ≤ count is_list_tools (trace st) + length (_servers (self st)) ∧
     count is_call_tool (trace st') = count is_call_tool (trace st) ∧
     log st' = log st).
Proof.
  split.
  - intros server_name r st' H.
    apply get_tools_from_server_events in H
      as (evs & -> & -> & _ & Hconn & Hlist & Hcall & _).
    change connection_attempts with (count is_connect) in *. rewrite !count_app.
    split_and!; try done; lia.
  - intros r st' H.
    unfold get_all_tools, get_self, mbind, M_bind, bind in H.
    apply get_all_tools_loop_events in H
      as (evs & -> & -> & _ & Hconn & Hlist & Hcall).
    change connection_attempts with (count is_connect) in *. rewrite !count_app.
    split_and!; try done; lia.
Qed.

Lemma get_all_tools_loop_Return_cached servers all_tools st tools st' :
  get_all_tools_loop remote servers all_tools st = (Return tools, st') →
  ∀ c, c ∈ servers → is_Some (_sessions (self st') !! ServerConfig.name c).
Proof.
  revert all_tools st.
  induction servers as [|server rest IH]; intros all_tools st; simpl.
  - intros _ c Hc. by apply elem_of_nil in Hc.
  - unfold mbind, M_bind, bind.
    destruct (get_tools_from_server remote _ st) as [[tools1|e] st1] eqn:Ht;
      [|discriminate].
    intros Hloop c Hc. apply elem_of_cons in Hc as [->|Hc].
    + apply get_tools_from_server_Return in Ht as (session & Hcached & _).
      simpl in Hcached.
      apply get_all_tools_loop_cache in Hloop as (_ & _ & _ & Hsub & _).
      exists session. by eapply lookup_weaken.
    + by eapply IH.
Qed.

Lemma get_all_tools_loop_all_cached servers all_tools st r st' :
  (∀ c, c ∈ servers → is_Some (_sessions (self st) !! ServerConfig.name c)) →
  get_all_tools_loop remote servers all_tools st = (r, st') →
  connection_attempts (trace st') = connection_attempts (trace st).
Proof.
  revert all_tools st.
  induction servers as [|server rest IH]; intros all_tools st Hall; simpl.
  - by intros [= _ <-].
  - unfold mbind, M_bind, bind.
    destruct (get_tools_from_server remote _ st) as [[tools1|e] st1] eqn:Ht.
    + intros Hloop.
      pose proof (get_tools_from_server_cache _ _ _ _ _ Ht)
        as (_ & _ & _ & Hsub & _).
      apply get_tools_from_server_events in Ht
        as (evs & Htr & _ & _ & _ & _ & _ & Hzero).
      apply IH in Hloop.
      * rewrite Hloop, Htr. change connection_attempts with (count is_connect) in *.
        rewrite count_app. simpl in Hzero.
        rewrite Hzero; [lia|]. apply Hall, list_elem_of_here.
      * intros c Hc. destruct (Hall c) as [s Hs];
          [by apply list_elem_of_further|].
        exists s. by eapply lookup_weaken.
    + intros [= _ <-].
      apply get_tools_from_server_events in Ht
        as (evs & Htr & _ & _ & _ & _ & _ & Hzero).
      rewrite Htr. change connection_attempts with (count is_connect) in *.
      rewrite count_app. simpl in Hzero.
      rewrite Hzero; [lia|]. apply Hall, list_elem_of_here.
Qed.

(** X13. After [get_all_tools] has returned, every configured server has a
    session in the cache, and calling [get_all_tools] again makes no
    connection attempt: it only lists again. *)
Theorem get_all_tools_again_connects_nothing
    (st : State) (tools : list MCPTool.t) (st1 : State) :
  get_all_tools remote st = (Return tools, st1) →
  (∀ c, c ∈ _servers (self st) →
        is_Some (_sessions (self st1) !! ServerConfig.name c)) ∧
  ∀ r st2,
    get_all_tools remote st1 = (r, st2) →
    connection_attempts (trace st2) = connection_attempts (trace st1).
Proof.
  unfold get_all_tools, get_self, mbind, M_bind, bind. intros H.
  pose proof (get_all_tools_loop_Return_cached _ _ _ _ _ H) as Hcached.
  split; [exact Hcached|]. intros r st2 H2.
  apply get_all_tools_loop_cache in H as (Hservers & _).
  apply get_all_tools_loop_all_cached in H2; [exact H2|].
  intros c Hc. apply Hcached. by rewrite <- Hservers.
Qed.

(** X14. The default server's name is not checked when the provider is
    constructed: a default that no configured server has is accepted, and
    then in every state the provider reaches [get_tools_from_server]
    without a name raises the [ValueError] that names it, changing
    nothing. *)
Theorem unconfigured_default_fails_at_use
    (environ : gmap string string) (servers : list ServerConfig.t)
    (d : string) (anthropic_api_key : option string)
    (p : MCPToolProvider.t) (st : State) :
  MCPToolProvider.__init__ environ (Some servers) (Some d) anthropic_api_key
    = Return p →
  d ≠ "" →
  d ∉ map ServerConfig.name servers →
  reachable remote p st →
  _default_server p = d ∧
  get_tools_from_server remote None st
    = (Raise (Exc ValueError ("No server configuration found for " +:+ d)
                  None), st).
Proof.
  unfold MCPToolProvider.__init__. intros Hinit Hd Hnot Hreach.
  destruct (negb (truthy (py_or anthropic_api_key _))); [discriminate|].
  destruct servers as [|first rest]; [discriminate|].
  simpl in Hinit. apply String.eqb_neq in Hd. rewrite Hd in Hinit.
  simpl in Hinit. injection Hinit as <-.
  apply reachable_inv in Hreach as (Hservers & Hdefault & Hcache).
  simpl in Hservers, Hdefault. split; [reflexivity|].
  rewrite get_tools_from_server_eq. simpl. rewrite Hdefault.
  rewrite get_or_create_session_eq.
  destruct (_sessions (self st) !! d) as [s|] eqn:Hlook.
  { apply Hcache in Hlook. by rewrite Hservers in Hlook. }
  rewrite Hservers. apply find_server_None in Hnot. by rewrite Hnot.
Qed.

End AllServers.

(** ** Cached sessions are initialized *)

Section Initialized.

Context (remote : Remote).

Lemma cached_initialized_extend st st' evs :
  self st' = self st →
  trace st' = trace st ++ evs →
  cached_initialized remote st → cached_initialized remote st'.
Proof.
  intros Hself Htr Hinit n s. rewrite Hself. intros Hs.
  destruct (Hinit n s Hs) as (h & rest & Hh & Hok).
  exists h, (rest ++ evs). split; [|exact Hok].
  by rewrite Htr, Hh, <- app_assoc.
Qed.

Lemma get_or_create_session_initialized n st r st' :
  cached_initialized remote st →
  _get_or_create_session remote n st = (r, st') →
  cached_initialized remote st'.
Proof.
  intros Hinit. rewrite get_or_create_session_eq.
  destruct (_sessions (self st) !! n) as [s0|] eqn:Hlook.
  { by intros [= _ <-]. }
  destruct (find_server _ n) as [c|].
  2:{ by intros [= _ <-]. }
  simpl. destruct (transport_answer _ _ _) as [[r0 w0]|e].
  2:{ intros [= _ <-].
      by eapply (cached_initialized_extend st); [| |exact Hinit]. }
  destruct (on_initialize _ _ _) as [[]|e] eqn:Hok.
  2:{ intros [= _ <-].
      by eapply (cached_initialized_extend st); [| |exact Hinit]. }
  intros [= _ <-] m s. simpl. rewrite lookup_insert. case_decide as Hm.
  - intros [= <-].
    exists (trace st ++ [new_event_loop; transport_event c]), [loop_close].
    split; [by rewrite <- app_assoc | exact Hok].
  - intros Hs. destruct (Hinit m s Hs) as (h & rest & Hh & Hok').
    eexists h, (rest ++ _). split; [|exact Hok'].
    by rewrite Hh, <- app_assoc.
Qed.

Lemma get_tools_from_server_initialized server_name st r st' :
  cached_initialized remote st →
  get_tools_from_server remote server_name st = (r, st') →
  cached_initialized remote st'.
Proof.
  intros Hinit H. apply get_tools_from_server_state in H
    as (r1 & st1 & evs & Hs & Hself & _ & _ & Htr & _).
  apply get_or_create_session_initialized in Hs; [|exact Hinit].
  by eapply cached_initialized_extend.
Qed.

Lemma get_all_tools_loop_initialized servers all_tools st r st' :
  cached_initialized remote st →
  get_all_tools_loop remote servers all_tools st = (r, st') →
  cached_initialized remote st'.
Proof.
  revert all_tools st.
  induction servers as [|server rest IH]; intros all_tools st Hinit; simpl.
  - by intros [= _ <-].
  - unfold mbind, M_bind, bind.
    destruct (get_tools_from_server remote _ st) as [[tools|e] st1] eqn:Ht;
      apply get_tools_from_server_initialized in Ht; try done.
    + by apply IH.
    + by intros [= _ <-].
Qed.

(** X15. A session gets into the cache only after its handshake: in every
    state the provider reaches, the history holds, for every cached
    session, the [initialize] request on that session, and the answer to
    it was a success. *)
Theorem reachable_sessions_initialized
    (p : MCPToolProvider.t) (st : State) (n : string) (s : ClientSession) :
  reachable remote p st →
  _sessions (self st) !! n = Some s →
  ∃ h rest,
    trace st = h ++ initialize s :: rest ∧
    on_initialize remote h s = Return tt.
Proof.
  intros Hreach. revert n s. change (cached_initialized remote st).
  induction Hreach as [tr lg k Hempty | st n r st' _ IH Hcall
                      | st n r st' _ IH Hcall | st r st' _ IH Hcall
                      | st tool kwargs r st' _ IH Hcall].
  - intros n s. simpl. by rewrite Hempty, lookup_empty.
  - by eapply get_or_create_session_initialized.
  - by eapply get_tools_from_server_initialized.
  - unfold get_all_tools, get_self, mbind, M_bind, bind in Hcall.
    by eapply get_all_tools_loop_initialized.
  - apply call_mcp_tool_state in Hcall as (Hself & _ & Htr).
    by eapply cached_initialized_extend.
Qed.

End Initialized.

(** ** Interleaved calls, whatever the schedule *)

Section Interleaved.

Context (remote : Remote).

Lemma thread_step_connects t st :
  connection_attempts (trace (thread_step remote t st).2)
    + (if before_connect (thread_step remote t st).1 then 1 else 0)
  ≤ connection_attempts (trace st) + (if before_connect t then 1 else 0).
Proof.
  change connection_attempts with (count is_connect).
  destruct t as [n | n c | n s | r]; simpl.
  - destruct (_sessions (self st) !! n); simpl; [lia|].
    destruct (find_server _ n); simpl; [|lia].
    rewrite count_app. count_events.
  - unfold mbind, M_bind, bind. rewrite open_transport_eq. simpl.
    destruct (transport_answer _ _ _) as [[r0 w0]|e]; simpl;
      rewrite ?count_app; count_events.
  - unfold run_initialize, request. simpl.
    destruct (on_initialize _ _ _) as [[]|e]; simpl;
      rewrite ?count_app; count_events.
  - lia.
Qed.

Lemma threads_before_connect_cons t threads :
  threads_before_connect (t :: threads)
    = (if before_connect t then 1 else 0) + threads_before_connect threads.
Proof.
  unfold threads_before_connect. destruct (before_connect t) eqn:Ht.
  - by rewrite filter_cons_True.
  - rewrite filter_cons_False; [done|]. by rewrite Ht.
Qed.

Lemma threads_before_connect_insert threads i t t' :
  threads !! i = Some t →
  threads_before_connect (<[i := t']> threads)
    + (if before_connect t then 1 else 0)
  = threads_before_connect threads + (if before_connect t' then 1 else 0).
Proof.
  revert i. induction threads as [|t0 threads IH]; intros i; [done|].
  destruct i as [|i].
  - intros [= ->]. change (<[0:=t']> (t :: threads)) with (t' :: threads).
    rewrite !threads_before_connect_cons. lia.
  - intros Hi. apply IH in Hi.
    change (<[S i:=t']> (t0 :: threads)) with (t0 :: <[i:=t']> threads).
    rewrite !threads_before_connect_cons. lia.
Qed.

Lemma threads_before_connect_le threads :
  threads_before_connect threads ≤ length threads.
Proof. apply length_filter. Qed.

(** X16. Whatever the schedule, a call opens its transport at most once:
    the connection attempts that any interleaving of the calls makes are
    at most as many as the calls that had not connected yet, so at most
    as many as there are calls. *)
Theorem any_schedule_connects_once_per_call
    (schedule : list nat) (threads : list thread) (st : State) :
  let threads' := (run_schedule remote schedule threads st).1 in
  let st' := (run_schedule remote schedule threads st).2 in
  connection_attempts (trace st') + threads_before_connect threads'
    ≤ connection_attempts (trace st) + threads_before_connect threads ∧
  connection_attempts (trace st')
    ≤ connection_attempts (trace st) + length threads.
Proof.
  simpl.
  assert (H : connection_attempts
                (trace (run_schedule remote schedule threads st).2)
              + threads_before_connect
                  (run_schedule remote schedule threads st).1
              ≤ connection_attempts (trace st)
                + threads_before_connect threads).
  { revert threads st.
    induction schedule as [|i rest IH]; intros threads st; simpl; [lia|].
    destruct (threads !! i) as [t|] eqn:Hi; [|apply IH].
    pose proof (thread_step_connects t st) as Hstep.
    destruct (thread_step remote t st) as [t' st1]. simpl in Hstep.
    pose proof (threads_before_connect_insert threads i t t' Hi) as Hins.
    specialize (IH (<[i:=t']> threads) st1). lia. }
  split; [exact H|].
  pose proof (threads_before_connect_le threads). lia.
Qed.

End Interleaved.

(** ** The further properties in the example setting *)

Lemma find_server_first_match_witness :
  find_server [Example.say_config; Example.fetch_config;
               ServerConfig.mk "fetch-service" (Some "http://localhost:9")
                               None None [] ∅]
              "fetch-service" = Some Example.fetch_config.
Proof.
  apply (find_server_first_match
           [Example.say_config; Example.fetch_config;
            ServerConfig.mk "fetch-service" (Some "http://localhost:9")
                            None None [] ∅]
           "fetch-service" Example.fetch_config).
  exists [Example.say_config],
    [ServerConfig.mk "fetch-service" (Some "http://localhost:9") None None
                     [] ∅].
  split; [reflexivity|]. split; [reflexivity|].
  simpl. intros H. apply elem_of_cons in H as [H|H]; [discriminate H|].
  by apply elem_of_nil in H.
Defined.

Lemma method_call_keeps_cache_witness :
  let st' := (get_tools_from_server Example.all_up (Some "fetch-service")
                Example.say_cached).2 in
  _sessions (self Example.say_cached) ⊆ _sessions (self st') ∧
  _servers (self st') = _servers (self Example.say_cached) ∧
  _default_server (self st') = _default_server (self Example.say_cached).
Proof.
  apply (method_call_keeps_cache Example.all_up Example.say_cached).
  apply (call_get_tools_from_server Example.all_up (Some "fetch-service")
           Example.say_cached
           (get_tools_from_server Example.all_up (Some "fetch-service")
              Example.say_cached).1).
  apply surjective_pairing.
Defined.

Lemma method_call_closes_loops_witness :
  ∃ evs,
    trace (get_all_tools Example.fetch_down Example.start).2
      = trace Example.start ++ evs ∧
    loops_balanced evs.
Proof.
  apply (method_call_closes_loops Example.fetch_down Example.start).
  apply (call_get_all_tools Example.fetch_down Example.start
           (get_all_tools Example.fetch_down Example.start).1).
  apply surjective_pairing.
Defined.

Lemma both_cached_reachable :
  reachable Example.all_up Example.provider Example.both_cached.
Proof.
  apply (reach_all_tools Example.all_up Example.provider Example.start
           (get_all_tools Example.all_up Example.start).1).
  - by apply (reach_start Example.all_up Example.provider [] [] 0).
  - apply surjective_pairing.
Qed.

Lemma reachable_sessions_distinct_witness :
  session_id Example.session0 ≠ session_id Example.session1.
Proof.
  apply (reachable_sessions_distinct Example.all_up Example.provider
           Example.both_cached "say-service" "fetch-service").
  - exact both_cached_reachable.
  - reflexivity.
  - reflexivity.
  - discriminate.
Defined.

Lemma get_tools_from_server_lists_again_witness :
  let first := get_tools_from_server Example.all_up (Some "say-service")
                 Example.say_cached in
  let second := get_tools_from_server Example.all_up (Some "say-service")
                  first.2 in
  let adapt answer :=
    match answer with
    | Return mcp_tools => wrap_tools Example.session0 mcp_tools []
    | Raise e => Raise e
    end in
  trace second.2
    = trace Example.say_cached
        ++ [new_event_loop; list_tools Example.session0; loop_close;
            new_event_loop; list_tools Example.session0; loop_close] ∧
  self second.2 = self Example.say_cached ∧
  first.1 = adapt (on_list_tools Example.all_up
                     (trace Example.say_cached ++ [new_event_loop])
                     Example.session0) ∧
  second.1 = adapt (on_list_tools Example.all_up
                      (trace Example.say_cached
                         ++ [new_event_loop; list_tools Example.session0;
                             loop_close; new_event_loop])
                      Example.session0).
Proof.
  apply (get_tools_from_server_lists_again Example.all_up "say-service"
           Example.session0 Example.say_cached).
  reflexivity.
Defined.

Lemma failed_listing_keeps_session_witness :
  ∃ st',
    get_tools_from_server Example.listing_fails (Some "say-service")
      Example.start = (Raise (Exc TimeoutError "timed out" None), st') ∧
    _sessions (self st') !! "say-service" = Some Example.session0 ∧
    trace (get_tools_from_server Example.listing_fails (Some "say-service")
             st').2
      = trace st' ++ [new_event_loop; list_tools Example.session0;
                      loop_close].
Proof.
  apply (failed_listing_keeps_session Example.listing_fails "say-service"
           Example.start Example.session0 Example.say_cached).
  - reflexivity.
  - reflexivity.
Defined.

Lemma listed_tool_calls_its_server_witness :
  ∃ session,
    _sessions (self (get_tools_from_server Example.all_up None
                       Example.start).2)
      !! default (_default_server (self Example.start)) None = Some session ∧
    ∀ kwargs st2,
      trace (_call_mcp_tool Example.all_up Example.say kwargs st2).2
        = trace st2 ++ [call_tool session (MCPTool.name Example.say) kwargs].
Proof.
  apply (listed_tool_calls_its_server Example.all_up None Example.start
           [Example.say]).
  - vm_compute. reflexivity.
  - apply list_elem_of_here.
Defined.

Lemma listing_cost_bounded_witness :
  connection_attempts (trace Example.both_cached)
    ≤ connection_attempts (trace Example.start)
      + length (_servers (self Example.start)) ∧
  count is_list_tools (trace Example.both_cached)
    ≤ count is_list_tools (trace Example.start)
      + length (_servers (self Example.start)) ∧
  count is_call_tool (trace Example.both_cached)
    = count is_call_tool (trace Example.start) ∧
  log Example.both_cached = log Example.start.
Proof.
  apply (proj2 (listing_cost_bounded Example.all_up Example.start)
           (get_all_tools Example.all_up Example.start).1).
  apply surjective_pairing.
Defined.

Lemma get_all_tools_again_connects_nothing_witness :
  (∀ c, c ∈ _servers (self Example.start) →
        is_Some (_sessions (self Example.both_cached)
                   !! ServerConfig.name c)) ∧
  ∀ r st2,
    get_all_tools Example.all_up Example.both_cached = (r, st2) →
    connection_attempts (trace st2)
      = connection_attempts (trace Example.both_cached).
Proof.
  apply (get_all_tools_again_connects_nothing Example.all_up Example.start
           [Example.say; Example.fetch]).
  vm_compute. reflexivity.
Defined.

Lemma unconfigured_default_fails_at_use_witness :
  _default_server Example.stray_default = "weather-service" ∧
  get_tools_from_server Example.all_up None
    (initial_state Example.stray_default)
    = (Raise (Exc ValueError
                ("No server configuration found for " +:+ "weather-service")
                None), initial_state Example.stray_default).
Proof.
  apply (unconfigured_default_fails_at_use Example.all_up Example.environ
           [Example.say_config; Example.fetch_config] "weather-service" None
           Example.stray_default (initial_state Example.stray_default)).
  - reflexivity.
  - discriminate.
  - simpl. intros H.
    apply elem_of_cons in H as [H|H]; [discriminate H|].
    apply elem_of_cons in H as [H|H]; [discriminate H|].
    by apply elem_of_nil in H.
  - by apply (reach_start Example.all_up Example.stray_default [] [] 0).
Defined.

Lemma reachable_sessions_initialized_witness :
  ∃ h rest,
    trace Example.say_cached = h ++ initialize Example.session0 :: rest ∧
    on_initialize Example.all_up h Example.session0 = Return tt.
Proof.
  apply (reachable_sessions_initialized Example.all_up Example.provider
           Example.say_cached "say-service" Example.session0).
  - apply (reach_session Example.all_up Example.provider Example.start
             "say-service" (Return Example.session0) Example.say_cached).
    + by apply (reach_start Example.all_up Example.provider [] [] 0).
    + reflexivity.
  - reflexivity.
Defined.

(** ** ServerConfig as an object *)

Lemma args_or_new_spec (args : option nat) (s : Objects.Store) :
  let r := (Objects.args_or_new args s).1 in
  let s1 := (Objects.args_or_new args s).2 in
  (∀ ref l, Objects.lists s !! ref = Some l →
            Objects.lists s1 !! ref = Some l) ∧
  Objects.dicts s1 = Objects.dicts s ∧
  default [] (Objects.lists s1 !! r)
    = default [] (Objects.list_value s args) ∧
  (∀ ref a l, args = Some ref → Objects.lists s !! ref = Some (a :: l) →
              r = ref).
Proof.
  assert (Hnew : Objects.lists s !! fresh (dom (Objects.lists s)) = None).
  { apply not_elem_of_dom, is_fresh. }
  assert (Hkeep : ∀ ref l,
            Objects.lists s !! ref = Some l →
            <[fresh (dom (Objects.lists s)) := []]> (Objects.lists s) !! ref
              = Some l).
  { intros ref l Hl. rewrite lookup_insert_ne; [done|]. congruence. }
  unfold Objects.args_or_new, Objects.list_value.
  destruct args as [r0|]; simpl.
  - destruct (Objects.lists s !! r0) as [[|a l]|] eqn:Hr0; simpl.
    + split_and!; try done. by rewrite lookup_insert_eq.
      intros ref a l [= ->]. congruence.
    + split_and!; try done. by rewrite Hr0.
      by intros ref a' l' [= ->].
    + split_and!; try done. by rewrite lookup_insert_eq.
      intros ref a l [= ->]. congruence.
  - split_and!; try done. by rewrite lookup_insert_eq.
Qed.

Lemma env_or_new_spec (env : option nat) (s : Objects.Store) :
  let r := (Objects.env_or_new env s).1 in
  let s1 := (Objects.env_or_new env s).2 in
  (∀ ref d, Objects.dicts s !! ref = Some d →
            Objects.dicts s1 !! ref = Some d) ∧
  Objects.lists s1 = Objects.lists s ∧
  default ∅ (Objects.dicts s1 !! r)
    = default ∅ (Objects.dict_value s env) ∧
  (∀ ref d, env = Some ref → Objects.dicts s !! ref = Some d → d ≠ ∅ →
            r = ref).
Proof.
  assert (Hnew : Objects.dicts s !! fresh (dom (Objects.dicts s)) = None).
  { apply not_elem_of_dom, is_fresh. }
  assert (Hkeep : ∀ ref d,
            Objects.dicts s !! ref = Some d →
            <[fresh (dom (Objects.dicts s)) := ∅]> (Objects.dicts s) !! ref
              = Some d).
  { intros ref d Hd. rewrite lookup_insert_ne; [done|]. congruence. }
  unfold Objects.env_or_new, Objects.dict_value.
  destruct env as [r0|]; simpl.
  - destruct (Objects.dicts s !! r0) as [d0|] eqn:Hr0; simpl.
    + case_bool_decide as Hd0; simpl.
      * split_and!; try done. by rewrite lookup_insert_eq, Hd0.
        intros ref d [= ->] Hd Hne. congruence.
      * split_and!; try done. by rewrite Hr0.
        by intros ref d [= ->].
    + split_and!; try done. by rewrite lookup_insert_eq.
      intros ref d [= ->]. congruence.
  - split_and!; try done. by rewrite lookup_insert_eq.
Qed.

(** C4, as the code has it. Giving both [base_url] and [command], or
    neither, makes [ServerConfig(...)] raise a [ValueError] (the
    configuration error) whose text contains the server name; giving exactly
    one of them returns an object with every attribute set: the name and the
    transport fields as passed, [args] and [env] with the values of what was
    passed, the empty list and dict when nothing was.  Either way the
    caller's lists and dicts are as they were.  The object is not a copy of
    what it was given: a non-empty list or dict that was passed is the very
    object the configuration then holds. *)
Theorem ServerConfig_object_validates
    (name : string) (base_url api_key command : option string)
    (args env : option nat) (s : Objects.Store) :
  let r := Objects.__init__ name base_url api_key command args env s in
  (∀ ref l, Objects.lists s !! ref = Some l →
            Objects.lists r.2 !! ref = Some l) ∧
  (∀ ref d, Objects.dicts s !! ref = Some d →
            Objects.dicts r.2 !! ref = Some d) ∧
  ((is_Some base_url ↔ is_Some command) →
     ∃ e, r.1 = Raise e ∧ exc_class e = ValueError ∧
          occurs_in name (str e)) ∧
  (¬ (is_Some base_url ↔ is_Some command) →
     ∃ c,
       r.1 = Return c ∧
       Objects.view r.2 c
         = ServerConfig.mk name base_url api_key command
             (default [] (Objects.list_value s args))
             (default ∅ (Objects.dict_value s env)) ∧
       ServerConfig.__init__ name base_url api_key command
           (Objects.list_value s args) (Objects.dict_value s env)
         = Return (Objects.view r.2 c) ∧
       (∀ ref a l, args = Some ref →
                   Objects.lists s !! ref = Some (a :: l) →
                   Objects.args c = ref) ∧
       (∀ ref d, env = Some ref → Objects.dicts s !! ref = Some d →
                 d ≠ ∅ → Objects.env c = ref)).
Proof.
  pose proof (args_or_new_spec args s) as (Hl1 & Hd1 & Hargs & Halias).
  unfold Objects.__init__.
  destruct (Objects.args_or_new args s) as [args_ref s1] eqn:Ha.
  pose proof (env_or_new_spec env s1) as (Hd2 & Hl2 & Henv & Halias_env).
  destruct (Objects.env_or_new env s1) as [env_ref s2] eqn:He.
  simpl in *.
  assert (Hlists : ∀ ref l, Objects.lists s !! ref = Some l →
                            Objects.lists s2 !! ref = Some l).
  { intros ref l Hl. rewrite Hl2. by apply Hl1. }
  assert (Hdicts : ∀ ref d, Objects.dicts s !! ref = Some d →
                            Objects.dicts s2 !! ref = Some d).
  { intros ref d Hd. apply Hd2. by rewrite Hd1. }
  assert (Hview : ∀ c,
            c = {| Objects.name := name; Objects.base_url := base_url;
                   Objects.api_key := api_key; Objects.command := command;
                   Objects.args := args_ref; Objects.env := env_ref |} →
            Objects.view s2 c
              = ServerConfig.mk name base_url api_key command
                  (default [] (Objects.list_value s args))
                  (default ∅ (Objects.dict_value s env))).
  { intros c ->. unfold Objects.view. simpl. rewrite Hl2, Hargs, Henv.
    unfold Objects.dict_value. by rewrite Hd1. }
  destruct base_url as [u|], command as [cm|]; simpl;
    (split; [exact Hlists|]); (split; [exact Hdicts|]); split; intros H.
  - eexists. split; [reflexivity|]. split; [reflexivity|].
    apply occurs_in_middle.
  - destruct H. split; eauto.
  - destruct H as [H _]. destruct (H (ltac:(eauto))) as [? [=]].
  - eexists. split; [reflexivity|]. rewrite (Hview _ eq_refl).
    split_and!; try done.
    intros ref d Hr Hd Hne. apply (Halias_env ref d); try done.
    by rewrite Hd1.
  - destruct H as [_ H]. destruct (H (ltac:(eauto))) as [? [=]].
  - eexists. split; [reflexivity|]. rewrite (Hview _ eq_refl).
    split_and!; try done.
    intros ref d Hr Hd Hne. apply (Halias_env ref d); try done.
    by rewrite Hd1.
  - eexists. split; [reflexivity|]. split; [reflexivity|].
    apply occurs_in_middle.
  - destruct H. split; intros [? [=]].
Qed.

Lemma ServerConfig_object_validates_witness :
  (∃ e, (Objects.__init__ "say-service" None None None (Some 0) None
           caller_store).1 = Raise e ∧
        exc_class e = ValueError ∧ occurs_in "say-service" (str e)) ∧
  (∃ c,
     (Objects.__init__ "say-service" None None (Some "python") (Some 0) None
        caller_store).1 = Return c ∧
     Objects.view
       (Objects.__init__ "say-service" None None (Some "python") (Some 0)
          None caller_store).2 c
       = ServerConfig.mk "say-service" None None (Some "python")
           (default [] (Objects.list_value caller_store (Some 0)))
           (default ∅ (Objects.dict_value caller_store None)) ∧
     ServerConfig.__init__ "say-service" None None (Some "python")
         (Objects.list_value caller_store (Some 0))
         (Objects.dict_value caller_store None)
       = Return
           (Objects.view
              (Objects.__init__ "say-service" None None (Some "python")
                 (Some 0) None caller_store).2 c) ∧
     (∀ ref a l, Some 0 = Some ref →
                 Objects.lists caller_store !! ref = Some (a :: l) →
                 Objects.args c = ref) ∧
     (∀ ref d, None = Some ref → Objects.dicts caller_store !! ref = Some d →
               d ≠ ∅ → Objects.env c = ref)).
Proof.
  split.
  - apply (ServerConfig_object_validates "say-service" None None None
             (Some 0) None caller_store).
    split; intros [? [=]].
  - apply (ServerConfig_object_validates "say-service" None None
             (Some "python") (Some 0) None caller_store).
    intros [_ H]. destruct (H (ltac:(eauto))) as [? [=]].
Defined.

(** C4, as stated, fails: the descriptor is not immutable.  The caller
    passes its list as [args]; the configuration that is returned holds
    that list itself, and when the caller appends to its list afterwards,
    the configuration's [args] have changed. *)
Lemma ServerConfig_args_shared_with_caller :
  ∃ c s1,
    Objects.__init__ "say-service" None None (Some "python") (Some 0) None
                     caller_store = (Return c, s1) ∧
    Objects.args c = 0 ∧
    Objects.view s1 c = Example.say_config ∧
    ServerConfig.args
      (Objects.view (Objects.list_append 0 "--verbose" s1) c)
      = ["examples/mcp/say_server.py"; "--verbose"] ∧
    Objects.view (Objects.list_append 0 "--verbose" s1) c
      ≠ Objects.view s1 c.
Proof.
  eexists _, _. split; [vm_compute; reflexivity|].
  split; [reflexivity|]. split; [vm_compute; reflexivity|].
  split; [vm_compute; reflexivity|].
  intros H. apply (f_equal ServerConfig.args) in H. vm_compute in H.
  discriminate H.
Qed.
